(** * CIFlowBot: a shallow embedding of [src/ciflow-bot.ts]

    The bot reacts to pull-request and issue-comment webhook deliveries,
    decides which [ciflow/] labels a pull request should carry, reconciles
    the labels through the platform API and toggles an assignee as a signal.

    Conventions of the embedding.
    - A JavaScript string is a [string]; each [ascii] stands for one UTF-16
      code unit in the range 0..255.
    - A value that may be [undefined] at run time (every field the source
      reads through [?.]) is an [option]; [None] is [undefined].
    - Instance fields are a record that is passed explicitly; log records and
      platform API calls are appended to a trace; a thrown exception ends the
      computation and keeps the trace. *)

From Stdlib Require Import List String Ascii Bool ZArith Arith Lia.
Import ListNotations.
Open Scope string_scope.
Open Scope list_scope.

Set Implicit Arguments.

(** ** JavaScript built-ins used by the bot *)

Module JS.

(** [s.startsWith(p)] *)
Definition startsWith (s p : string) : bool := String.prefix p s.

(** [l.includes(x)] on an array of strings *)
Definition includes (l : list string) (x : string) : bool :=
  existsb (String.eqb x) l.

(** [l.includes(x)] where [x] may be [undefined]: no string is [undefined]. *)
Definition includes_val (l : list string) (x : option string) : bool :=
  match x with
  | Some v => includes l v
  | None => false
  end.

(** [a === b] on values that are a string or [undefined] *)
Definition strict_eq (a b : option string) : bool :=
  match a, b with
  | Some x, Some y => String.eqb x y
  | None, None => true
  | _, _ => false
  end.

(** [s.split(sep)] for a separator of one code unit *)
Fixpoint split (sep : ascii) (s : string) : list string :=
  match s with
  | EmptyString => [EmptyString]
  | String c s' =>
      if Ascii.eqb c sep then EmptyString :: split sep s'
      else match split sep s' with
           | [] => [String c EmptyString]
           | h :: t => String c h :: t
           end
  end.

(** [s.includes(t)] on strings: [t] occurs in [s] as a substring. *)
Fixpoint str_includes (s t : string) : bool :=
  String.prefix t s ||
  match s with
  | EmptyString => false
  | String _ s' => str_includes s' t
  end.

(** *** Regular expressions

    The fragment of ECMAScript patterns the bot uses: assertions [^] and [$]
    (no [m] flag), literal characters, the classes [.], [\s] and [\w] under a
    greedy quantifier, concatenation and capturing groups.  Matching is the
    backtracking matcher of the language definition, in continuation-passing
    style. *)

Inductive charset : Type := Dot | Space | Word.

Definition between (lo hi n : nat) : bool := Nat.leb lo n && Nat.leb n hi.

(** Membership of a code unit below 256 in a class.
    [.] excludes the line terminators LF and CR; [\s] is TAB, LF, VT, FF, CR,
    SPACE and NBSP; [\w] is [A-Za-z0-9_]. *)
Definition in_class (cs : charset) (c : ascii) : bool :=
  let n := nat_of_ascii c in
  match cs with
  | Dot => negb (Nat.eqb n 10 || Nat.eqb n 13)
  | Space => between 9 13 n || Nat.eqb n 32 || Nat.eqb n 160
  | Word =>
      between 65 90 n || between 97 122 n || between 48 57 n || Nat.eqb n 95
  end.

Inductive regex : Type :=
| Bol                                              (* ^ *)
| Eol                                              (* $ *)
| Lit (s : string)                                 (* literal characters *)
| Rep (cs : charset) (lo : nat) (hi : option nat)  (* cs{lo,hi}, greedy *)
| Cat (r1 r2 : regex)
| Grp (i : nat) (r : regex).                       (* i-th capturing group *)

Definition Star (cs : charset) : regex := Rep cs 0 None.
Definition Plus (cs : charset) : regex := Rep cs 1 None.
Definition Opt (cs : charset) : regex := Rep cs 0 (Some 1).

(** Matcher state: index in the input, the input from that index on, and the
    captures (index 0 is reserved for the whole match). *)
Record mstate : Type := MState {
  pos : nat;
  rest : string;
  caps : list (option string)
}.

Definition cont : Type := mstate -> option mstate.

Fixpoint upd {A} (i : nat) (v : A) (l : list A) : list A :=
  match l, i with
  | [], _ => []
  | _ :: t, O => v :: t
  | h :: t, S j => h :: upd j v t
  end.

Definition more (hi : option nat) : bool :=
  match hi with
  | Some O => false
  | _ => true
  end.

(** Greedy repetition of a class: one more character first, the
    continuation when that fails and the lower bound is met. *)
Fixpoint mrep (cs : charset) (lo : nat) (hi : option nat)
    (p : nat) (s : string) (c : list (option string)) (k : cont)
    {struct s} : option mstate :=
  let stop := if Nat.eqb lo 0 then k (MState p s c) else None in
  match s with
  | EmptyString => stop
  | String a s' =>
      if in_class cs a && more hi then
        match mrep cs (Nat.pred lo) (option_map Nat.pred hi) (S p) s' c k with
        | Some r => Some r
        | None => stop
        end
      else stop
  end.

Fixpoint mlit (l : string) (p : nat) (s : string) : option (nat * string) :=
  match l with
  | EmptyString => Some (p, s)
  | String a l' =>
      match s with
      | String b s' => if Ascii.eqb a b then mlit l' (S p) s' else None
      | EmptyString => None
      end
  end.

Fixpoint mtch (r : regex) (st : mstate) (k : cont) : option mstate :=
  match r with
  | Bol => if Nat.eqb (pos st) 0 then k st else None
  | Eol => match rest st with EmptyString => k st | _ => None end
  | Lit l =>
      match mlit l (pos st) (rest st) with
      | Some (p, s) => k (MState p s (caps st))
      | None => None
      end
  | Rep cs lo hi => mrep cs lo hi (pos st) (rest st) (caps st) k
  | Cat r1 r2 => mtch r1 st (fun st1 => mtch r2 st1 k)
  | Grp i r =>
      mtch r st (fun st1 =>
        let captured := substring 0 (pos st1 - pos st) (rest st) in
        k (MState (pos st1) (rest st1) (upd i (Some captured) (caps st1))))
  end.

(** [re.exec(input)] for a pattern with [ngroups] groups and no flags: the
    first index at which the pattern matches; the result array holds the
    whole match and then the captures, so its length is [ngroups + 1]. *)
Fixpoint exec_from (re : regex) (ngroups : nat) (p : nat) (s : string)
    : option (list (option string)) :=
  match mtch re (MState p s (repeat None (S ngroups))) Some with
  | Some st => Some (upd 0 (Some (substring 0 (pos st - p) s)) (caps st))
  | None =>
      match s with
      | EmptyString => None
      | String _ s' => exec_from re ngroups (S p) s'
      end
  end.

(** [input.match(re)] for a pattern without the [g] flag *)
Definition match_ (input : string) (re : regex) (ngroups : nat)
    : option (list (option string)) :=
  exec_from re ngroups 0 input.

(** *** What a successful match says

    A declarative reading of [mtch], without the order in which the
    alternatives are tried: [matches r st st'] holds when [r] can take the
    matcher from [st] to [st']. *)

Fixpoint str_forall (f : ascii -> bool) (s : string) : bool :=
  match s with
  | EmptyString => true
  | String c s' => f c && str_forall f s'
  end.

Definition within (hi : option nat) (n : nat) : Prop :=
  match hi with
  | Some h => n <= h
  | None => True
  end.

Inductive matches : regex -> mstate -> mstate -> Prop :=
| matches_Bol st :
    pos st = 0 -> matches Bol st st
| matches_Eol st :
    rest st = EmptyString -> matches Eol st st
| matches_Lit l st s' :
    rest st = (l ++ s')%string ->
    matches (Lit l) st (MState (pos st + String.length l) s' (caps st))
| matches_Rep cs lo hi st w s' :
    rest st = (w ++ s')%string ->
    str_forall (in_class cs) w = true ->
    lo <= String.length w ->
    within hi (String.length w) ->
    matches (Rep cs lo hi) st
      (MState (pos st + String.length w) s' (caps st))
| matches_Cat r1 r2 st st1 st2 :
    matches r1 st st1 -> matches r2 st1 st2 -> matches (Cat r1 r2) st st2
| matches_Grp i r st st1 :
    matches r st st1 ->
    matches (Grp i r) st
      (MState (pos st1) (rest st1)
         (upd i (Some (substring 0 (pos st1 - pos st) (rest st)))
            (caps st1))).

End JS.

(** ** Webhook deliveries

    The part of a delivery the bot reads.  A field is optional exactly where
    the source reads it through [?.] (or stores it without looking at it). *)

Module User.
Record t : Type := Make { login : option string }.
End User.

Module Label.
Record t : Type := Make { name : string }.
End Label.

(** A pull request, or the issue that carries a comment. *)
Module Issue.
Record t : Type := Make {
  number : option Z;
  user : option User.t;
  labels : option (list Label.t)
}.
End Issue.

Module Comment.
Record t : Type := Make {
  user : option User.t;
  body : option string
}.
End Comment.

Module Repository.
Record t : Type := Make {
  owner : option User.t;
  name : option string
}.
End Repository.

Module Payload.
Record t : Type := Make {
  pull_request : option Issue.t;
  issue : option Issue.t;
  comment : option Comment.t;
  repository : option Repository.t
}.
End Payload.

(** [probot.Context]: the event name and the payload. *)
Module Context.
Record t : Type := Make {
  name : string;
  payload : option Payload.t
}.
End Context.

(** ** Effects: log records, platform calls, exceptions *)

(** The four REST calls the bot issues, with the arguments it passes. *)
Inductive Call : Type :=
| removeLabel (owner repo : option string) (issue_number : option Z)
    (name : string)
| addLabels (owner repo : option string) (issue_number : option Z)
    (labels : list string)
| addAssignees (owner repo : option string) (issue_number : option Z)
    (assignees : list string)
| removeAssignees (owner repo : option string) (issue_number : option Z)
    (assignees : list string).

(** The object logged by the two info records of the handler. *)
Record DispatchInfo : Type := {
  log_dispatch_labels : list string;
  log_dispatch_strategies : list string;
  log_event : string;
  log_owner : option string;
  log_pr_number : option Z;
  log_pr_labels : option (list string);
  log_repo : option string
}.

Inductive LogObject : Type :=
| LogCtx (ctx : Context.t)
| LogStrategyName (strategyName : string)
| LogDispatch (info : DispatchInfo).

Inductive Level : Type := Error | Info.

Inductive Effect : Type :=
| Log (level : Level) (obj : LogObject) (msg : string)
| Api (c : Call).

Inductive Exn : Type :=
| TypeError        (* a property read or a spread on [undefined] *)
| RequestError.    (* a platform call whose promise rejects *)

Inductive Outcome (A : Type) : Type :=
| Returned (a : A)
| Threw (e : Exn).
Arguments Threw {A} e.

(** A computation extends the trace of effects and returns or throws. *)
Definition M (A : Type) : Type := list Effect -> Outcome A * list Effect.

Definition ret {A} (a : A) : M A := fun tr => (Returned a, tr).

Definition bind {A B} (m : M A) (f : A -> M B) : M B :=
  fun tr =>
    match m tr with
    | (Returned a, tr') => f a tr'
    | (Threw e, tr') => (Threw e, tr')
    end.

Definition lift {A} (o : Outcome A) : M A := fun tr => (o, tr).

Definition emit (e : Effect) : M unit := fun tr => (Returned tt, tr ++ [e]).

Declare Scope bot_scope.
Delimit Scope bot_scope with bot.
Notation "x <- m ;; k" := (bind m (fun x => k))
  (at level 100, m at next level, right associativity) : bot_scope.
Notation "m ;; k" := (bind m (fun _ => k))
  (at level 100, right associativity) : bot_scope.

(** The platform calls and the log records of a trace, in order. *)
Definition calls (tr : list Effect) : list Call :=
  flat_map (fun e => match e with Api c => [c] | Log _ _ _ => [] end) tr.

Definition logs (tr : list Effect) : list (Level * LogObject * string) :=
  flat_map (fun e =>
    match e with Log l o m => [(l, o, m)] | Api _ => [] end) tr.

(** ** The bot *)

Module CIFlowBot.

Local Open Scope bot_scope.

(** Static readonly configurations *)
Definition allowed_commands : list string := ["ciflow"].
Definition bot_app_name : string := "pytorchbot".
Definition bot_assignee : string := "pytorchbot".
Definition event_issue_comment : string := "issue_comment".
Definition event_pull_request : string := "pull_request".
Definition pr_label_prefix : string := "ciflow/".
Definition rollout_users : list string := ["zhouzhuojie"].
Definition strategy_add_default_labels : string :=
  "strategy_add_default_labels".

(** Stateful instance variables *)
Record Bot : Type := {
  ctx : Context.t;
  command : option string;
  command_args : list string;
  comment_author : option string;
  comment_body : option string;
  dispatch_labels : list string;
  dispatch_strategies : list string;
  event : string;
  owner : option string;
  pr_author : option string;
  pr_labels : option (list string);
  pr_number : option Z;
  repo : option string
}.

(** [new CIFlowBot(ctx)]: the field initialisers and the constructor. *)
Definition new (c : Context.t) : Bot := {|
  ctx := c;
  command := Some "";
  command_args := [];
  comment_author := Some "";
  comment_body := Some "";
  dispatch_labels := [];
  dispatch_strategies := [strategy_add_default_labels];
  event := "";
  owner := Some "";
  pr_author := Some "";
  pr_labels := Some [];
  pr_number := Some 0%Z;
  repo := Some ""
|}.

Definition set_command (v : option string) (s : Bot) : Bot := {|
  ctx := ctx s; command := v; command_args := command_args s;
  comment_author := comment_author s; comment_body := comment_body s;
  dispatch_labels := dispatch_labels s;
  dispatch_strategies := dispatch_strategies s; event := event s;
  owner := owner s; pr_author := pr_author s; pr_labels := pr_labels s;
  pr_number := pr_number s; repo := repo s
|}.

Definition set_command_args (v : list string) (s : Bot) : Bot := {|
  ctx := ctx s; command := command s; command_args := v;
  comment_author := comment_author s; comment_body := comment_body s;
  dispatch_labels := dispatch_labels s;
  dispatch_strategies := dispatch_strategies s; event := event s;
  owner := owner s; pr_author := pr_author s; pr_labels := pr_labels s;
  pr_number := pr_number s; repo := repo s
|}.

Definition set_comment_body (v : option string) (s : Bot) : Bot := {|
  ctx := ctx s; command := command s; command_args := command_args s;
  comment_author := comment_author s; comment_body := v;
  dispatch_labels := dispatch_labels s;
  dispatch_strategies := dispatch_strategies s; event := event s;
  owner := owner s; pr_author := pr_author s; pr_labels := pr_labels s;
  pr_number := pr_number s; repo := repo s
|}.

Definition set_dispatch_labels (v : list string) (s : Bot) : Bot := {|
  ctx := ctx s; command := command s; command_args := command_args s;
  comment_author := comment_author s; comment_body := comment_body s;
  dispatch_labels := v;
  dispatch_strategies := dispatch_strategies s; event := event s;
  owner := owner s; pr_author := pr_author s; pr_labels := pr_labels s;
  pr_number := pr_number s; repo := repo s
|}.

(** *** [valid] *)
Definition valid (s : Bot) : M bool :=
  if negb (event s =? event_pull_request)%string &&
     negb (event s =? event_issue_comment)%string
  then
    emit (Log Error (LogCtx (ctx s)) "Unknown webhook event");;
    ret false
  else if (event s =? event_issue_comment)%string then
    if JS.strict_eq (comment_author s) (Some "") then
      emit (Log Error (LogCtx (ctx s)) "Empty comment author");;
      ret false
    else if negb (JS.strict_eq (comment_author s) (pr_author s)) then
      ret false
    else if negb (JS.includes_val allowed_commands (command s)) then
      ret false
    else ret true
  else ret true.

(** *** [rollout] *)
Definition rollout (s : Bot) : bool :=
  if JS.includes_val rollout_users (pr_author s) then true else false.

(** *** [dispatch_strategy_func]

    When the accumulator is empty it is replaced by [pr_labels]; spreading
    an [undefined] accumulator throws. *)
Definition dispatch_strategy_func (strategyName : string) (s : Bot) : M Bot :=
  if (strategyName =? strategy_add_default_labels)%string then
    let acc :=
      if Nat.eqb (List.length (dispatch_labels s)) 0 then pr_labels s
      else Some (dispatch_labels s) in
    match acc with
    | Some l => ret (set_dispatch_labels ("ciflow/default" :: l) s)
    | None => lift (Threw TypeError)
    end
  else
    emit (Log Error (LogStrategyName strategyName)
            "Unknown dispatch strategy");;
    ret s.

(** [this.dispatch_strategies.map(this.dispatch_strategy_func.bind(this))]:
    the steps run left to right on the same instance. *)
Fixpoint run_strategies (names : list string) (s : Bot) : M Bot :=
  match names with
  | [] => ret s
  | n :: ns => s' <- dispatch_strategy_func n s;; run_strategies ns s'
  end.

(** *** [parseComment] *)

(** The pattern of [parseComment], piece by piece: [^], [.] starred, the
    literal [@] followed by [bot_app_name], [\s+], group 1 [\w+], [\s?],
    group 2 [.] starred, [$]. *)
Definition re : JS.regex :=
  JS.Cat JS.Bol
 (JS.Cat (JS.Star JS.Dot)
 (JS.Cat (JS.Lit ("@" ++ bot_app_name))
 (JS.Cat (JS.Plus JS.Space)
 (JS.Cat (JS.Grp 1 (JS.Plus JS.Word))
 (JS.Cat (JS.Opt JS.Space)
 (JS.Cat (JS.Grp 2 (JS.Star JS.Dot))
  JS.Eol)))))).

(** [found[i]] is [nth i found None]: an index out of range reads
    [undefined]; [found[2].split] on [undefined] throws. *)
Definition parseComment (s : Bot) : Outcome Bot :=
  match comment_body s with
  | None => Returned s
  | Some body =>
      match JS.match_ body re 2 with
      | None => Returned s
      | Some found =>
          let s1 :=
            if Nat.leb 2 (List.length found)
            then set_command (nth 1 found None) s else s in
          if Nat.eqb (List.length found) 3 then
            match nth 2 found None with
            | Some g => Returned (set_command_args (JS.split " " g) s1)
            | None => Threw TypeError
            end
          else Returned s1
      end
  end.

(** *** [setContext] *)

(** [pr?.labels?.filter(...)?.map(label => label.name)] *)
Definition namespaced (ls : list Label.t) : list string :=
  map Label.name
    (filter (fun label => JS.startsWith (Label.name label) pr_label_prefix)
       ls).

Definition opt_bind {A B} (o : option A) (f : A -> option B) : option B :=
  match o with
  | Some a => f a
  | None => None
  end.

(** [this.ctx.payload?.pull_request || this.ctx.payload?.issue] *)
Definition payload_pr (c : Context.t) : option Issue.t :=
  match opt_bind (Context.payload c) Payload.pull_request with
  | Some pr => Some pr
  | None => opt_bind (Context.payload c) Payload.issue
  end.

Definition setContext (s : Bot) : Outcome Bot :=
  let c := ctx s in
  let pr := payload_pr c in
  let comment := opt_bind (Context.payload c) Payload.comment in
  let repository := opt_bind (Context.payload c) Payload.repository in
  parseComment {|
    ctx := c;
    command := command s;
    command_args := command_args s;
    comment_author :=
      opt_bind (opt_bind comment Comment.user) User.login;
    comment_body := opt_bind comment Comment.body;
    dispatch_labels := dispatch_labels s;
    dispatch_strategies := dispatch_strategies s;
    event := Context.name c;
    owner := opt_bind (opt_bind repository Repository.owner) User.login;
    pr_author := opt_bind (opt_bind pr Issue.user) User.login;
    pr_labels := option_map namespaced (opt_bind pr Issue.labels);
    pr_number := opt_bind pr Issue.number;
    repo := opt_bind repository Repository.name
  |}.

(** *** [setLabels] *)

Definition labels (s : Bot) : list string :=
  filter (fun label => JS.startsWith label pr_label_prefix)
    (dispatch_labels s).

Definition labelsToDelete (labels pr_labels : list string) : list string :=
  filter (fun l => negb (JS.includes labels l)) pr_labels.

Definition labelsToAdd (labels pr_labels : list string) : list string :=
  filter (fun l => negb (JS.includes pr_labels l)) labels.

(** [this.ctx.payload.repository.owner.login] and
    [this.ctx.payload.repository.name], read without [?.]: a missing
    payload, repository or owner throws. *)
Definition payload_owner_login (c : Context.t) : Outcome (option string) :=
  match opt_bind (opt_bind (Context.payload c) Payload.repository)
          Repository.owner with
  | Some o => Returned (User.login o)
  | None => Threw TypeError
  end.

Definition payload_repo_name (c : Context.t) : Outcome (option string) :=
  match opt_bind (Context.payload c) Payload.repository with
  | Some r => Returned (Repository.name r)
  | None => Threw TypeError
  end.

Definition dispatch_info (s : Bot) : DispatchInfo := {|
  log_dispatch_labels := dispatch_labels s;
  log_dispatch_strategies := dispatch_strategies s;
  log_event := event s;
  log_owner := owner s;
  log_pr_number := pr_number s;
  log_pr_labels := pr_labels s;
  log_repo := repo s
|}.

Section Platform.

(** The hosting platform: whether the promise of a call resolves, given the
    effects so far.  A rejected promise is thrown at its [await]. *)
Variable platform : list Effect -> Call -> bool.

Definition request (c : Call) : M unit :=
  fun tr =>
    (if platform tr c then Returned tt else Threw RequestError,
     tr ++ [Api c]).

(** The [for ... of labelsToDelete] loop, one awaited call per label. *)
Fixpoint removeLabels (s : Bot) (ls : list string) : M unit :=
  match ls with
  | [] => ret tt
  | label :: ls' =>
      o <- lift (payload_owner_login (ctx s));;
      r <- lift (payload_repo_name (ctx s));;
      request (removeLabel o r (pr_number s) label);;
      removeLabels s ls'
  end.

Definition setLabels (s : Bot) : M Bot :=
  match pr_labels s with
  | None => lift (Threw TypeError)
  | Some cur =>
      removeLabels s (labelsToDelete (labels s) cur);;
      o <- lift (payload_owner_login (ctx s));;
      r <- lift (payload_repo_name (ctx s));;
      request (addLabels o r (pr_number s) (labelsToAdd (labels s) cur));;
      ret (set_dispatch_labels (labels s) s)
  end.

(** *** [signal_github] *)
Definition signal_github (s : Bot) : M unit :=
  request (addAssignees (owner s) (repo s) (pr_number s) [bot_assignee]);;
  request (removeAssignees (owner s) (repo s) (pr_number s) [bot_assignee]).

(** *** [dispatch] *)
Definition dispatch (s : Bot) : M Bot :=
  s1 <- run_strategies (dispatch_strategies s) s;;
  s2 <- setLabels s1;;
  signal_github s2;;
  emit (Log Info (LogDispatch (dispatch_info s2)) "ciflow dispatch success!");;
  ret s2.

(** *** [handler] *)
Definition handler (s : Bot) : M Bot :=
  s1 <- lift (setContext s);;
  emit (Log Info (LogDispatch (dispatch_info s1)) "ciflow dispatch started!");;
  ok <- valid s1;;
  if negb ok then ret s1
  else if negb (rollout s1) then ret s1
  else dispatch s1.

(** [webhookHandler] of [main]: a fresh instance per delivery. *)
Definition webhookHandler (c : Context.t) : M Bot := handler (new c).

End Platform.

End CIFlowBot.

(** ** Deliveries used as examples *)

Module Samples.

Definition user (login : string) : option User.t :=
  Some (User.Make (Some login)).

Definition pytorch : option Repository.t :=
  Some (Repository.Make (user "pytorch") (Some "pytorch")).

Definition issue (author : string) (labels : list string) : option Issue.t :=
  Some (Issue.Make (Some 61888%Z) (user author)
          (Some (map Label.Make labels))).

(** A [pull_request] delivery. *)
Definition pull_request (author : string) (labels : list string)
    : Context.t :=
  Context.Make "pull_request"
    (Some (Payload.Make (issue author labels) None None pytorch)).

(** An [issue_comment] delivery on a pull request. *)
Definition issue_comment (author commenter : string) (labels : list string)
    (body : string) : Context.t :=
  Context.Make "issue_comment"
    (Some (Payload.Make None (issue author labels)
             (Some (Comment.Make (user commenter) (Some body))) pytorch)).

(** A platform on which every call resolves. *)
Definition resolves : list Effect -> Call -> bool := fun _ _ => true.

End Samples.

(** * Properties *)

(** ** The matcher *)

Module JSFacts.
Import JS.

Lemma eqb_includes (l : list string) (x : string) :
  includes l x = true <-> In x l.
Proof.
  unfold includes. rewrite existsb_exists. split.
  - intros [y [Hy He]]. apply String.eqb_eq in He. now subst.
  - intros H. exists x. split; [assumption | apply String.eqb_refl].
Qed.

Lemma includes_false (l : list string) (x : string) :
  includes l x = false <-> ~ In x l.
Proof.
  rewrite <- eqb_includes. destruct (includes l x); split; congruence.
Qed.

Lemma strict_eq_true (a b : option string) : strict_eq a b = true <-> a = b.
Proof.
  destruct a as [x|], b as [y|]; simpl; split; try congruence.
  - intros H. apply String.eqb_eq in H. now subst.
  - intros H. injection H as ->. apply String.eqb_refl.
Qed.

Lemma prefix_app (t b : string) : String.prefix t (t ++ b)%string = true.
Proof.
  induction t as [|c t IH]; simpl.
  - now destruct b.
  - destruct (ascii_dec c c); [assumption | congruence].
Qed.

Lemma append_assoc (a b c : string) :
  (a ++ b ++ c)%string = ((a ++ b) ++ c)%string.
Proof.
  induction a as [|x a IH]; simpl; [reflexivity | now rewrite IH].
Qed.

Lemma str_includes_app (a t b : string) :
  str_includes (a ++ t ++ b)%string t = true.
Proof.
  induction a as [|c a IH].
  - simpl (EmptyString ++ _)%string.
    destruct (t ++ b)%string eqn:E; cbn [str_includes];
      rewrite <- E, prefix_app; reflexivity.
  - cbn [String.append str_includes]. rewrite IH. apply orb_true_r.
Qed.

Lemma mlit_sound (l : string) :
  forall p s q s', mlit l p s = Some (q, s') ->
    s = (l ++ s')%string /\ q = p + String.length l.
Proof.
  induction l as [|a l IH]; intros p s q s' H; simpl in H.
  - injection H as <- <-. simpl. split; [reflexivity | lia].
  - destruct s as [|b s]; [discriminate|].
    destruct (Ascii.eqb a b) eqn:E; [|discriminate].
    apply Ascii.eqb_eq in E. subst b.
    apply IH in H. destruct H as [-> ->]. simpl. split; [reflexivity | lia].
Qed.

Lemma mrep_sound (cs : charset) (c : list (option string)) (k : cont) res :
  forall s lo hi p, mrep cs lo hi p s c k = Some res ->
    exists w s', s = (w ++ s')%string /\
      str_forall (in_class cs) w = true /\
      lo <= String.length w /\ within hi (String.length w) /\
      k (MState (p + String.length w) s' c) = Some res.
Proof.
  assert (Hstop : forall s lo hi p,
    (if Nat.eqb lo 0 then k (MState p s c) else None) = Some res ->
    exists w s', s = (w ++ s')%string /\
      str_forall (in_class cs) w = true /\
      lo <= String.length w /\ within hi (String.length w) /\
      k (MState (p + String.length w) s' c) = Some res).
  { intros s lo hi p H. destruct (Nat.eqb lo 0) eqn:E; [|discriminate].
    apply Nat.eqb_eq in E. subst lo.
    exists EmptyString, s. simpl. rewrite Nat.add_0_r.
    repeat split; try assumption; try lia.
    destruct hi; simpl; lia. }
  induction s as [|a s IH]; intros lo hi p H; simpl in H.
  - now apply Hstop.
  - destruct (in_class cs a && more hi) eqn:E; [|now apply Hstop].
    destruct (mrep cs (Nat.pred lo) (option_map Nat.pred hi) (S p) s c k)
      as [r|] eqn:E'; [|now apply Hstop].
    injection H as ->.
    apply andb_prop in E. destruct E as [Ea Eh].
    apply IH in E'. destruct E' as (w & s' & -> & Hw & Hlo & Hhi & Hk).
    exists (String a w), s'. simpl. rewrite Ea, Hw.
    replace (p + S (String.length w)) with (S p + String.length w) by lia.
    repeat split; try assumption; try lia.
    destruct hi as [[|h]|]; simpl in *; try discriminate; lia.
Qed.

Theorem mtch_sound (r : regex) :
  forall st k res, mtch r st k = Some res ->
    exists st', matches r st st' /\ k st' = Some res.
Proof.
  induction r as [| |l|cs lo hi|r1 IH1 r2 IH2|i r IH]; intros st k res H;
    simpl in H.
  - destruct (Nat.eqb (pos st) 0) eqn:E; [|discriminate].
    apply Nat.eqb_eq in E. exists st. split; [now constructor | assumption].
  - destruct (rest st) eqn:E; [|discriminate].
    exists st. split; [now constructor | assumption].
  - destruct (mlit l (pos st) (rest st)) as [[q s']|] eqn:E; [|discriminate].
    apply mlit_sound in E. destruct E as [E ->].
    eexists. split; [apply matches_Lit; eassumption | assumption].
  - apply mrep_sound in H. destruct H as (w & s' & E & Hw & Hlo & Hhi & Hk).
    eexists. split; [eapply matches_Rep; eassumption | assumption].
  - apply IH1 in H. destruct H as (st1 & M1 & H).
    apply IH2 in H. destruct H as (st2 & M2 & H).
    exists st2. split; [econstructor; eassumption | assumption].
  - apply IH in H. destruct H as (st1 & M1 & H).
    eexists. split; [apply matches_Grp; eassumption | assumption].
Qed.

(** A successful [exec] matched the pattern on some suffix of the input. *)
Lemma exec_from_sound (re : regex) (n : nat) :
  forall s p found, exec_from re n p s = Some found ->
    exists pre t q st,
      s = (pre ++ t)%string /\
      matches re (MState q t (repeat None (S n))) st /\
      found = upd 0 (Some (substring 0 (pos st - q) t)) (caps st).
Proof.
  induction s as [|a s IH]; intros p found H; simpl in H.
  - destruct (mtch re _ Some) as [st|] eqn:E; [|discriminate].
    injection H as <-. apply mtch_sound in E.
    destruct E as (st' & M & E). injection E as ->.
    exists EmptyString, EmptyString, p, st. auto.
  - destruct (mtch re _ Some) as [st|] eqn:E.
    + injection H as <-. apply mtch_sound in E.
      destruct E as (st' & M & E). injection E as ->.
      exists EmptyString, (String a s), p, st. auto.
    + apply IH in H. destruct H as (pre & t & q & st & -> & M & ->).
      exists (String a pre), t, q, st. auto.
Qed.

End JSFacts.

(** ** The bot *)

Module CIFlowBotFacts.
Import JS JSFacts CIFlowBot.

Ltac inv H := inversion H; subst; clear H.

(** Every match of the pattern of [parseComment] goes through the mention,
    and both groups take part in it. *)
Lemma re_matches_shape (q : nat) (t : string) (st : mstate) :
  matches re (MState q t (repeat None 3)) st ->
  (exists a b, t = (a ++ ("@" ++ bot_app_name) ++ b)%string) /\
  (exists g1 g2, caps st = [None; Some g1; Some g2]).
Proof.
  unfold re, Star, Plus, Opt. intros H.
  repeat match goal with
  | M : matches (Cat _ _) _ _ |- _ => inv M
  | M : matches (Grp _ _) _ _ |- _ => inv M
  | M : matches (Rep _ _ _) _ _ |- _ => inv M
  | M : matches (Lit _) _ _ |- _ => inv M
  | M : matches Bol _ _ |- _ => inv M
  | M : matches Eol _ _ |- _ => inv M
  end.
  cbn [pos rest caps repeat upd] in *. subst.
  split; eauto.
Qed.

Lemma match_re (body : string) (found : list (option string)) :
  match_ body re 2 = Some found ->
  str_includes body ("@" ++ bot_app_name) = true /\
  exists w g1 g2, found = [Some w; Some g1; Some g2].
Proof.
  unfold match_. intros H. apply exec_from_sound in H.
  destruct H as (pre & t & q & st & -> & M & ->).
  apply re_matches_shape in M. destruct M as [(a & b & ->) (g1 & g2 & ->)].
  split.
  - rewrite append_assoc. apply str_includes_app.
  - cbn [upd]. eauto.
Qed.

(** [parseComment] never throws: it leaves the instance as it is, or sets
    both [command] and [command_args] from the two groups. *)
Lemma parseComment_cases (s : Bot) :
  parseComment s = Returned s \/
  exists body w g1 g2,
    comment_body s = Some body /\
    match_ body re 2 = Some [Some w; Some g1; Some g2] /\
    parseComment s =
      Returned (set_command_args (split " " g2) (set_command (Some g1) s)).
Proof.
  unfold parseComment. destruct (comment_body s) as [body|]; [|now left].
  destruct (match_ body re 2) as [found|] eqn:E; [|now left].
  destruct (match_re _ E) as [_ (w & g1 & g2 & ->)].
  right. exists body, w, g1, g2. auto.
Qed.

Lemma parseComment_no_mention (s : Bot) :
  (comment_body s = None \/
   exists b, comment_body s = Some b /\
             str_includes b ("@" ++ bot_app_name) = false) ->
  parseComment s = Returned s.
Proof.
  intros H. unfold parseComment.
  destruct H as [-> | (b & -> & Hb)]; [reflexivity|].
  destruct (match_ b re 2) as [found|] eqn:E; [|reflexivity].
  apply match_re in E. destruct E as [E _]. congruence.
Qed.

Lemma setContext_returns (s : Bot) :
  let c := ctx s in
  let repository := opt_bind (Context.payload c) Payload.repository in
  exists s1, setContext s = Returned s1 /\
    ctx s1 = c /\
    event s1 = Context.name c /\
    dispatch_labels s1 = dispatch_labels s /\
    dispatch_strategies s1 = dispatch_strategies s /\
    pr_author s1 = opt_bind (opt_bind (payload_pr c) Issue.user) User.login /\
    pr_labels s1 =
      option_map namespaced (opt_bind (payload_pr c) Issue.labels) /\
    pr_number s1 = opt_bind (payload_pr c) Issue.number /\
    owner s1 = opt_bind (opt_bind repository Repository.owner) User.login /\
    repo s1 = opt_bind repository Repository.name.
Proof.
  unfold setContext.
  match goal with |- context [parseComment ?b] =>
    destruct (parseComment_cases b) as [E | (body & w & g1 & g2 & _ & _ & E)];
    rewrite E end;
  eexists; (split; [reflexivity|]); cbn; auto 12.
Qed.

Lemma namespaced_prefixed (ls : list Label.t) :
  Forall (fun l => startsWith l pr_label_prefix = true) (namespaced ls).
Proof.
  unfold namespaced. apply Forall_forall. intros l H.
  apply in_map_iff in H. destruct H as (x & <- & H).
  apply filter_In in H. tauto.
Qed.

(** *** The handler, step by step *)

Lemma valid_trace (s : Bot) :
  exists b errs,
    (forall tr, valid s tr = (Returned b, tr ++ errs)) /\
    calls errs = [] /\
    ((errs = [Log Error (LogCtx (ctx s)) "Unknown webhook event"] /\
      b = false /\
      event s <> event_pull_request /\ event s <> event_issue_comment) \/
     (errs = [Log Error (LogCtx (ctx s)) "Empty comment author"] /\
      b = false /\
      event s = event_issue_comment /\ comment_author s = Some "") \/
     (errs = [] /\
      (event s = event_pull_request \/
       event s = event_issue_comment /\ comment_author s <> Some ""))).
Proof.
  unfold valid.
  destruct (String.eqb_spec (event s) event_pull_request) as [Ep|Ep].
  - rewrite Ep. exists true, []. cbn.
    split; [intros tr; now rewrite app_nil_r|]. split; [reflexivity|].
    right. right. auto.
  - destruct (String.eqb_spec (event s) event_issue_comment) as [Ec|Ec];
      cbn [negb andb].
    + destruct (strict_eq (comment_author s) (Some "")) eqn:Ea.
      * apply strict_eq_true in Ea. eexists false, [_].
        split; [intros tr; reflexivity|]. split; [reflexivity|].
        right. left. auto.
      * assert (Ha : comment_author s <> Some "").
        { intros H. apply strict_eq_true in H. congruence. }
        destruct (negb (strict_eq (comment_author s) (pr_author s)));
          [|destruct (negb (includes_val allowed_commands (command s)))];
          eexists _, [];
          (split; [intros tr; cbn; now rewrite app_nil_r|]);
          (split; [reflexivity|]); right; right; auto.
    + eexists false, [_].
      split; [intros tr; reflexivity|]. split; [reflexivity|].
      left. auto.
Qed.

Lemma calls_app (a b : list Effect) : calls (a ++ b) = calls a ++ calls b.
Proof. unfold calls. apply flat_map_app. Qed.

Lemma handler_unfold (platform : list Effect -> Call -> bool)
    (s s1 : Bot) (tr : list Effect) :
  setContext s = Returned s1 ->
  handler platform s tr =
    match valid s1 (tr ++ [Log Info (LogDispatch (dispatch_info s1))
                             "ciflow dispatch started!"]) with
    | (Returned ok, tr2) =>
        if negb ok then (Returned s1, tr2)
        else if negb (rollout s1) then (Returned s1, tr2)
        else dispatch platform s1 tr2
    | (Threw e, tr2) => (Threw e, tr2)
    end.
Proof.
  intros E. unfold handler, bind, lift, emit, ret. rewrite E.
  destruct (valid s1 _) as [[ok|e] tr2]; [|reflexivity].
  destruct ok; cbn; [destruct (rollout s1)|]; reflexivity.
Qed.

Lemma rollout_iff (s : Bot) :
  rollout s = true <-> exists a, pr_author s = Some a /\ In a rollout_users.
Proof.
  unfold rollout, includes_val. destruct (pr_author s) as [a|].
  - destruct (includes rollout_users a) eqn:E.
    + apply eqb_includes in E. split; eauto.
    + apply includes_false in E. split; [discriminate|].
      intros (x & Hx & Hin). injection Hx as <-. contradiction.
  - split; [discriminate | intros (x & Hx & _); discriminate].
Qed.

(** The pipeline only ever assigns [dispatch_labels]. *)
Lemma run_strategies_frame (names : list string) :
  forall s tr s' tr', run_strategies names s tr = (Returned s', tr') ->
    s' = set_dispatch_labels (dispatch_labels s') s /\ calls tr' = calls tr.
Proof.
  induction names as [|n ns IH]; intros s tr s' tr' H; cbn in H.
  - injection H as <- <-. now destruct s.
  - unfold bind, dispatch_strategy_func in H.
    destruct (n =? strategy_add_default_labels)%string.
    + destruct (if Nat.eqb _ 0 then _ else _) as [l|]; cbn in H;
        [|discriminate].
      apply IH in H. cbn in H. exact H.
    + cbn in H. apply IH in H. destruct H as [H1 H2]. split; [exact H1|].
      rewrite H2, calls_app. cbn. apply app_nil_r.
Qed.

Section Resolves.

Variable platform : list Effect -> Call -> bool.
Hypothesis resolves : forall tr c, platform tr c = true.

Variables (s : Bot) (o r : option string).
Hypothesis owner_login : payload_owner_login (ctx s) = Returned o.
Hypothesis repo_name : payload_repo_name (ctx s) = Returned r.

Lemma removeLabels_resolves (ls : list string) :
  forall tr, removeLabels platform s ls tr =
    (Returned tt,
     tr ++ map (fun l => Api (removeLabel o r (pr_number s) l)) ls).
Proof.
  induction ls as [|l ls IH]; intros tr; cbn.
  - unfold ret. now rewrite app_nil_r.
  - unfold bind, lift, request. rewrite owner_login, repo_name, resolves.
    rewrite IH, <- app_assoc. reflexivity.
Qed.

Lemma setLabels_resolves (cur : list string) (tr : list Effect) :
  pr_labels s = Some cur ->
  setLabels platform s tr =
    (Returned (set_dispatch_labels (labels s) s),
     tr ++ map (fun l => Api (removeLabel o r (pr_number s) l))
             (labelsToDelete (labels s) cur)
        ++ [Api (addLabels o r (pr_number s)
                   (labelsToAdd (labels s) cur))]).
Proof.
  intros E. unfold setLabels. rewrite E. unfold bind at 1.
  rewrite removeLabels_resolves.
  unfold bind, lift, request, ret.
  rewrite owner_login, repo_name, resolves, <- app_assoc. reflexivity.
Qed.

End Resolves.

Lemma labels_prefixed (s : Bot) :
  Forall (fun l => startsWith l pr_label_prefix = true) (labels s).
Proof.
  apply Forall_forall. intros l H. apply filter_In in H. tauto.
Qed.

Lemma labelsToDelete_In (target cur : list string) (l : string) :
  In l (labelsToDelete target cur) <-> In l cur /\ ~ In l target.
Proof.
  unfold labelsToDelete. rewrite filter_In, negb_true_iff, includes_false.
  tauto.
Qed.

Lemma labelsToAdd_In (target cur : list string) (l : string) :
  In l (labelsToAdd target cur) <-> In l target /\ ~ In l cur.
Proof.
  unfold labelsToAdd. rewrite filter_In, negb_true_iff, includes_false.
  tauto.
Qed.

Lemma filter_nil_iff {A} (f : A -> bool) (l : list A) :
  filter f l = [] <-> forall x, In x l -> f x = false.
Proof.
  induction l as [|a l IH]; cbn.
  - tauto.
  - destruct (f a) eqn:E.
    + split; [discriminate|]. intros H. specialize (H a (or_introl eq_refl)).
      congruence.
    + rewrite IH. split.
      * intros H x [<-|Hx]; auto.
      * intros H x Hx. auto.
Qed.

Lemma setLabels_returned (platform : list Effect -> Call -> bool)
    (s s' : Bot) (tr tr' : list Effect) :
  setLabels platform s tr = (Returned s', tr') ->
  s' = set_dispatch_labels (labels s) s.
Proof.
  unfold setLabels. destruct (pr_labels s) as [cur|]; [|discriminate].
  unfold bind at 1.
  destruct (removeLabels platform s _ tr) as [[[]|e] t]; [|discriminate].
  unfold bind, lift, request, ret.
  destruct (payload_owner_login (ctx s)); [|discriminate].
  destruct (payload_repo_name (ctx s)); [|discriminate].
  destruct (platform t _); [|discriminate].
  intros H. now injection H as <- _.
Qed.

Lemma run_default (s : Bot) (cur : list string) (tr : list Effect) :
  dispatch_labels s = [] ->
  pr_labels s = Some cur ->
  run_strategies [strategy_add_default_labels] s tr =
    (Returned (set_dispatch_labels ("ciflow/default" :: cur) s), tr).
Proof.
  intros Hd Hp. cbn. unfold dispatch_strategy_func. cbn.
  rewrite Hd, Hp. reflexivity.
Qed.

(** The loop invariant of the pipeline: every label of the accumulator is a
    current label of the pull request or the default label. *)
Lemma run_strategies_invariant (cur : list string) (names : list string) :
  forall s tr,
    pr_labels s = Some cur ->
    Forall (fun l => In l cur \/ l = "ciflow/default") (dispatch_labels s) ->
    exists s' tr',
      run_strategies names s tr = (Returned s', tr') /\
      pr_labels s' = Some cur /\
      ctx s' = ctx s /\
      Forall (fun l => In l cur \/ l = "ciflow/default") (dispatch_labels s').
Proof.
  induction names as [|n ns IH]; intros s tr Hp Hd; cbn.
  - do 2 eexists. unfold ret. eauto.
  - unfold bind, dispatch_strategy_func.
    destruct (n =? strategy_add_default_labels)%string.
    + assert (E : exists l,
        (if Nat.eqb (List.length (dispatch_labels s)) 0 then pr_labels s
         else Some (dispatch_labels s)) = Some l /\
        Forall (fun l => In l cur \/ l = "ciflow/default") l).
      { destruct (dispatch_labels s) as [|x d] eqn:Ed; cbn.
        - exists cur. split; [exact Hp|].
          apply Forall_forall. auto.
        - eexists. split; [reflexivity | exact Hd]. }
      destruct E as (l & -> & Hl). cbn.
      apply (IH (set_dispatch_labels ("ciflow/default" :: l) s) tr);
        cbn; auto.
    + cbn. apply IH; assumption.
Qed.

Lemma valid_pull_request (s : Bot) (tr : list Effect) :
  event s = event_pull_request -> valid s tr = (Returned true, tr).
Proof. intros E. unfold valid. rewrite E. reflexivity. Qed.

Lemma payload_owner_repo (c : Context.t) (o : option string) :
  payload_owner_login c = Returned o ->
  exists r, payload_repo_name c = Returned r.
Proof.
  unfold payload_owner_login, payload_repo_name.
  destruct (opt_bind (Context.payload c) Payload.repository) as [rp|];
    [eauto | discriminate].
Qed.

(** [dispatch] on a fresh instance of a pull request without namespaced
    labels, whatever the platform answers: each call is issued only after
    the one before it has resolved. *)
Lemma dispatch_unlabelled (platform : list Effect -> Call -> bool)
    (s : Bot) (o r : option string) (tr : list Effect) :
  dispatch_labels s = [] ->
  dispatch_strategies s = [strategy_add_default_labels] ->
  pr_labels s = Some [] ->
  payload_owner_login (ctx s) = Returned o ->
  payload_repo_name (ctx s) = Returned r ->
  let al := addLabels o r (pr_number s) ["ciflow/default"] in
  let aa := addAssignees (owner s) (repo s) (pr_number s) [bot_assignee] in
  let ra := removeAssignees (owner s) (repo s) (pr_number s) [bot_assignee] in
  let s' := set_dispatch_labels ["ciflow/default"]
              (set_dispatch_labels ["ciflow/default"] s) in
  dispatch platform s tr =
    if platform tr al then
      if platform (tr ++ [Api al]) aa then
        if platform (tr ++ [Api al; Api aa]) ra then
          (Returned s',
           tr ++ [Api al; Api aa; Api ra;
                  Log Info (LogDispatch (dispatch_info s'))
                    "ciflow dispatch success!"])
        else (Threw RequestError, tr ++ [Api al; Api aa; Api ra])
      else (Threw RequestError, tr ++ [Api al; Api aa])
    else (Threw RequestError, tr ++ [Api al]).
Proof.
  intros Hd Hs Hp Ho Hr al aa ra s'.
  unfold dispatch. unfold bind at 1. rewrite Hs, (run_default s tr Hd Hp).
  unfold bind at 1. unfold setLabels.
  cbn [pr_labels set_dispatch_labels ctx pr_number]. rewrite Hp.
  change (labels (set_dispatch_labels ["ciflow/default"] s))
    with ["ciflow/default"].
  change (labelsToDelete ["ciflow/default"] []) with (@nil string).
  change (labelsToAdd ["ciflow/default"] []) with ["ciflow/default"].
  cbn [removeLabels].
  unfold signal_github, bind, lift, request, ret, emit.
  rewrite Ho, Hr. subst al aa ra s'. cbv zeta.
  change (owner (set_dispatch_labels _ (set_dispatch_labels _ s)))
    with (owner s).
  change (repo (set_dispatch_labels _ (set_dispatch_labels _ s)))
    with (repo s).
  change (pr_number (set_dispatch_labels _ (set_dispatch_labels _ s)))
    with (pr_number s).
  destruct (platform tr _); [|reflexivity].
  destruct (platform (tr ++ [_]) _);
    [|rewrite <- app_assoc; reflexivity].
  rewrite <- !app_assoc. cbn [app].
  destruct (platform (tr ++ [_; _]) _); reflexivity.
Qed.

End CIFlowBotFacts.

(** ** The claims *)

Import JS JSFacts CIFlowBot CIFlowBotFacts.

(** C1. [valid] returns a boolean and never throws.  It returns [true]
    exactly when the event is [pull_request], or the event is
    [issue_comment], the comment author is not the empty string and is the
    pull-request author, and the parsed command is an allowed command.  For
    an event of any other kind it returns [false]. *)
Theorem valid_iff (s : Bot) (tr : list Effect) :
  exists b tr', valid s tr = (Returned b, tr') /\
    (b = true <->
       event s = event_pull_request \/
       (event s = event_issue_comment /\
        comment_author s <> Some "" /\
        comment_author s = pr_author s /\
        exists c, command s = Some c /\ In c allowed_commands)) /\
    (event s <> event_pull_request ->
     event s <> event_issue_comment -> b = false).
Proof.
  unfold valid.
  destruct (String.eqb_spec (event s) event_pull_request) as [Ep|Ep].
  - rewrite Ep. cbn. do 2 eexists. split; [reflexivity|].
    split; [tauto | congruence].
  - destruct (String.eqb_spec (event s) event_issue_comment) as [Ec|Ec].
    + cbn [negb andb].
      destruct (strict_eq (comment_author s) (Some "")) eqn:Ea.
      { apply strict_eq_true in Ea. do 2 eexists.
        split; [reflexivity|]. split; [|congruence].
        split; [discriminate | intros [H | H]; tauto]. }
      assert (Ha : comment_author s <> Some "").
      { intros H. apply strict_eq_true in H. congruence. }
      destruct (strict_eq (comment_author s) (pr_author s)) eqn:Eb;
        cbn [negb].
      * apply strict_eq_true in Eb.
        destruct (includes_val allowed_commands (command s)) eqn:Ei;
          cbn [negb];
          do 2 eexists; (split; [reflexivity|]); (split; [|congruence]).
        -- split; [intros _ | reflexivity]. right.
           split; [assumption|]. split; [assumption|].
           split; [assumption|].
           unfold includes_val in Ei. destruct (command s) as [c|];
             [|discriminate].
           exists c. split; [reflexivity | now apply eqb_includes].
        -- split; [discriminate|]. intros [H | (_ & _ & _ & c & Hc & Hin)];
             [tauto|].
           rewrite Hc in Ei. unfold includes_val in Ei.
           apply includes_false in Ei. tauto.
      * do 2 eexists. split; [reflexivity|]. split; [|congruence].
        split; [discriminate|]. intros [H | (_ & _ & H & _)]; [tauto|].
        apply strict_eq_true in H. congruence.
    + cbn. do 2 eexists. split; [reflexivity|].
      split; [|reflexivity]. split; [discriminate | tauto].
Qed.

(** C9. A strategy key that is not a known strategy name logs an error,
    does not throw and leaves the instance, and so the accumulator of
    dispatch labels, as it was; the pipeline goes on with the remaining
    keys. *)
Theorem unknown_strategy_skipped
    (strategyName : string) (rest : list string) (s : Bot)
    (tr : list Effect) :
  strategyName <> strategy_add_default_labels ->
  let tr' :=
    tr ++ [Log Error (LogStrategyName strategyName)
             "Unknown dispatch strategy"] in
  dispatch_strategy_func strategyName s tr = (Returned s, tr') /\
  run_strategies (strategyName :: rest) s tr = run_strategies rest s tr'.
Proof.
  intros H tr'.
  assert (E : dispatch_strategy_func strategyName s tr = (Returned s, tr')).
  { unfold dispatch_strategy_func.
    destruct (String.eqb_spec strategyName strategy_add_default_labels);
      [contradiction | reflexivity]. }
  split; [exact E|].
  cbn [run_strategies]. unfold bind at 1. now rewrite E.
Qed.

Lemma unknown_strategy_skipped_witness :
  "strategy_infer_labels" <> strategy_add_default_labels /\
  dispatch_strategy_func "strategy_infer_labels"
    (set_dispatch_labels ["ciflow/old"]
       (new (Context.Make "pull_request" None)))
    [] =
  (Returned
     (set_dispatch_labels ["ciflow/old"]
        (new (Context.Make "pull_request" None))),
   [Log Error (LogStrategyName "strategy_infer_labels")
      "Unknown dispatch strategy"]).
Proof.
  assert (H : "strategy_infer_labels" <> strategy_add_default_labels)
    by discriminate.
  split; [exact H|].
  exact (proj1 (@unknown_strategy_skipped "strategy_infer_labels" []
    (set_dispatch_labels ["ciflow/old"]
       (new (Context.Make "pull_request" None))) [] H)).
Defined.

(** C7. Comment parsing on three bodies: "hey @pytorchbot ciflow default"
    gives the command "ciflow" with the arguments ["default"]; "no mention
    here" gives no command and leaves every field as it was;
    "@pytorchbot ciflow" gives the command "ciflow" with the one-element
    argument list that holds the empty string. *)
Theorem parseComment_examples (s1 s2 s3 : Bot) :
  comment_body s1 = Some "hey @pytorchbot ciflow default" ->
  comment_body s2 = Some "no mention here" ->
  comment_body s3 = Some "@pytorchbot ciflow" ->
  parseComment s1 =
    Returned (set_command_args ["default"] (set_command (Some "ciflow") s1)) /\
  parseComment s2 = Returned s2 /\
  parseComment s3 =
    Returned (set_command_args [""] (set_command (Some "ciflow") s3)).
Proof.
  intros H1 H2 H3. unfold parseComment. rewrite H1, H2, H3.
  assert (E1 : match_ "hey @pytorchbot ciflow default" re 2 =
               Some [Some "hey @pytorchbot ciflow default";
                     Some "ciflow"; Some "default"])
    by (vm_compute; reflexivity).
  assert (E2 : match_ "no mention here" re 2 = None)
    by (vm_compute; reflexivity).
  assert (E3 : match_ "@pytorchbot ciflow" re 2 =
               Some [Some "@pytorchbot ciflow"; Some "ciflow"; Some ""])
    by (vm_compute; reflexivity).
  rewrite E1, E2, E3. cbn. auto.
Qed.

Lemma parseComment_examples_witness :
  let c := Context.Make "issue_comment" None in
  let s1 :=
    set_comment_body (Some "hey @pytorchbot ciflow default") (new c) in
  let s3 := set_comment_body (Some "@pytorchbot ciflow") (new c) in
  (exists r1, parseComment s1 = Returned r1 /\
              command r1 = Some "ciflow" /\ command_args r1 = ["default"]) /\
  (exists r3, parseComment s3 = Returned r3 /\
              command r3 = Some "ciflow" /\ command_args r3 = [""]).
Proof.
  intros c s1 s3.
  destruct (@parseComment_examples s1
              (set_comment_body (Some "no mention here") (new c)) s3
              eq_refl eq_refl eq_refl) as (E1 & _ & E3).
  split; eexists; (split; [eassumption | split; reflexivity]).
Defined.

(** C10. When the payload has no comment body, or the body holds no
    "@pytorchbot" mention, [parseComment] returns without throwing and
    leaves the instance as it is; on a fresh instance [command] stays the
    empty string and [command_args] the empty list, and an [issue_comment]
    event with such a body is rejected by [valid]. *)
Theorem no_mention_no_command (c : Context.t) :
  let body := opt_bind (opt_bind (Context.payload c) Payload.comment)
                Comment.body in
  (body = None \/
   exists b, body = Some b /\
             str_includes b ("@" ++ bot_app_name) = false) ->
  (forall s, comment_body s = body -> parseComment s = Returned s) /\
  exists s1,
    setContext (new c) = Returned s1 /\
    command s1 = Some "" /\
    command_args s1 = [] /\
    (Context.name c = event_issue_comment ->
     forall tr, fst (valid s1 tr) = Returned false).
Proof.
  intros body H. split.
  - intros s Hs. apply parseComment_no_mention. now rewrite Hs.
  - unfold setContext.
    match goal with |- context [parseComment ?b] => set (s1 := b) end.
    exists s1. split; [apply parseComment_no_mention; exact H|].
    split; [reflexivity|]. split; [reflexivity|].
    intros Hc tr. unfold valid.
    replace (event s1) with event_issue_comment by (symmetry; exact Hc).
    cbn [String.eqb Ascii.eqb Bool.eqb event_issue_comment
         event_pull_request negb andb].
    destruct (strict_eq (comment_author s1) (Some "")); [reflexivity|].
    destruct (strict_eq (comment_author s1) (pr_author s1)); reflexivity.
Qed.

Lemma no_mention_no_command_witness :
  let c := Samples.issue_comment "zhouzhuojie" "zhouzhuojie" []
             "please run ciflow" in
  exists s1,
    setContext (new c) = Returned s1 /\
    command s1 = Some "" /\
    command_args s1 = [] /\
    fst (valid s1 []) = Returned false.
Proof.
  intros c.
  assert (H : opt_bind (opt_bind (Context.payload c) Payload.comment)
                Comment.body = None \/
              exists b,
                opt_bind (opt_bind (Context.payload c) Payload.comment)
                  Comment.body = Some b /\
                str_includes b ("@" ++ bot_app_name) = false).
  { right. exists "please run ciflow". split; reflexivity. }
  destruct (proj2 (no_mention_no_command c H)) as (s1 & E & Hc & Ha & Hv).
  exists s1. repeat (split; [assumption|]). exact (Hv eq_refl []).
Defined.

(** C5, as stated, fails: on an [issue_comment] delivery whose comment
    author is the empty string, [valid] returns [false] after logging
    "Empty comment author", so the trace of the handler holds a second log
    record after "ciflow dispatch started!". *)
Lemma rejected_logs_once_counterexample :
  let c := Samples.issue_comment "zhouzhuojie" "" [] "@pytorchbot ciflow" in
  exists s1 tr,
    setContext (new c) = Returned s1 /\
    fst (valid s1 []) = Returned false /\
    webhookHandler Samples.resolves c [] = (Returned s1, tr) /\
    logs tr =
      [(Info, LogDispatch (dispatch_info s1), "ciflow dispatch started!");
       (Error, LogCtx c, "Empty comment author")].
Proof.
  intros c. do 2 eexists.
  split; [vm_compute; reflexivity|].
  split; [vm_compute; reflexivity|].
  split; vm_compute; reflexivity.
Qed.

(** C5, amended.  When [valid] returns [false] the handler returns without
    throwing and makes no platform call.  Its trace is the "ciflow dispatch
    started!" record followed by what [valid] itself logs: the error
    "Unknown webhook event" for an event that is neither [pull_request] nor
    [issue_comment], the error "Empty comment author" for an
    [issue_comment] event whose comment author is the empty string, and
    nothing otherwise. *)
Theorem rejected_no_calls (platform : list Effect -> Call -> bool)
    (c : Context.t) (s1 : Bot) :
  setContext (new c) = Returned s1 ->
  fst (valid s1 []) = Returned false ->
  exists errs,
    webhookHandler platform c [] =
      (Returned s1,
       Log Info (LogDispatch (dispatch_info s1)) "ciflow dispatch started!"
         :: errs) /\
    calls (snd (webhookHandler platform c [])) = [] /\
    ((errs = [Log Error (LogCtx c) "Unknown webhook event"] /\
      Context.name c <> event_pull_request /\
      Context.name c <> event_issue_comment) \/
     (errs = [Log Error (LogCtx c) "Empty comment author"] /\
      Context.name c = event_issue_comment /\
      comment_author s1 = Some "") \/
     (errs = [] /\ Context.name c = event_issue_comment /\
      comment_author s1 <> Some "")).
Proof.
  intros E Hv.
  destruct (setContext_returns (new c)) as (s1' & E' & Hctx & Hev & _).
  rewrite E in E'. injection E' as <-. cbn in Hctx, Hev.
  destruct (valid_trace s1) as (b & errs & Htr & Hcalls & Hcases).
  rewrite Htr in Hv. cbn in Hv. injection Hv as ->.
  exists errs. unfold webhookHandler.
  rewrite (handler_unfold platform _ [] E), Htr. cbn [negb app snd].
  split; [reflexivity|]. split; [exact Hcalls|].
  rewrite Hctx, Hev in Hcases.
  destruct Hcases as [(-> & _ & H1 & H2) | [(-> & _ & H1 & H2) |
                      (-> & [H | [H1 H2]])]]; auto.
  exfalso.
  destruct (String.eqb_spec (event s1) event_pull_request) as [Ep|Ep];
    [|rewrite Hev in Ep; contradiction].
  specialize (Htr []). unfold valid in Htr.
  rewrite Ep in Htr. cbn in Htr. discriminate.
Qed.

Lemma rejected_no_calls_witness :
  let c := Samples.issue_comment "zhouzhuojie" "alice" ["ciflow/default"]
             "@pytorchbot ciflow" in
  exists s1,
    setContext (new c) = Returned s1 /\
    fst (valid s1 []) = Returned false /\
    webhookHandler Samples.resolves c [] =
      (Returned s1,
       [Log Info (LogDispatch (dispatch_info s1))
          "ciflow dispatch started!"]).
Proof.
  intros c.
  destruct (setContext (new c)) as [s1|e] eqn:E; [|discriminate E].
  exists s1.
  assert (Hv : fst (valid s1 []) = Returned false).
  { vm_compute in E. injection E as <-. vm_compute. reflexivity. }
  split; [reflexivity|]. split; [exact Hv|].
  destruct (rejected_no_calls Samples.resolves c E Hv)
    as (errs & Eh & _ & Hcases).
  rewrite Eh.
  destruct Hcases as [(_ & _ & H) | [(_ & _ & H) | (-> & _)]].
  - exfalso. apply H. reflexivity.
  - exfalso. vm_compute in E. injection E as <-. discriminate H.
  - reflexivity.
Defined.

(** C6. [rollout] returns [true] exactly when the login of the pull-request
    author is one of [rollout_users]; and when the author of the delivery is
    not one of them the handler returns after the "ciflow dispatch
    started!" record and what [valid] logs, with no platform call at all,
    also when [valid] returns [true]. *)
Theorem rollout_gate (platform : list Effect -> Call -> bool)
    (c : Context.t) :
  (forall s, rollout s = true <->
             exists a, pr_author s = Some a /\ In a rollout_users) /\
  exists s1,
    setContext (new c) = Returned s1 /\
    (~ (exists a, pr_author s1 = Some a /\ In a rollout_users) ->
     fst (webhookHandler platform c []) = Returned s1 /\
     dispatch_labels s1 = [] /\
     calls (snd (webhookHandler platform c [])) = []).
Proof.
  split; [exact rollout_iff|].
  destruct (setContext_returns (new c)) as (s1 & E & _ & _ & Hd & _).
  exists s1. split; [exact E|]. intros Hnot.
  assert (Hr : rollout s1 = false).
  { destruct (rollout s1) eqn:Er; [|reflexivity].
    apply rollout_iff in Er. contradiction. }
  destruct (valid_trace s1) as (b & errs & Htr & Hcalls & _).
  unfold webhookHandler.
  rewrite (handler_unfold platform _ [] E), Htr, Hr.
  destruct b; cbn [negb fst snd app]; auto.
Qed.

Lemma rollout_gate_witness :
  let c := Samples.pull_request "alice" ["ciflow/old"] in
  exists s1,
    setContext (new c) = Returned s1 /\
    fst (valid s1 []) = Returned true /\
    rollout s1 = false /\
    calls (snd (webhookHandler Samples.resolves c [])) = [].
Proof.
  intros c.
  destruct (proj2 (rollout_gate Samples.resolves c)) as (s1 & E & H).
  exists s1. split; [exact E|].
  vm_compute in E. injection E as <-.
  split; [vm_compute; reflexivity|]. split; [vm_compute; reflexivity|].
  apply H. intros (a & Ha & [Hin | []]). subst a. discriminate Ha.
Defined.

(** C2. For an instance whose [pr_labels] were read by [setContext] and
    whose accumulator is any list [d]: the target is the labels of [d] that
    start with "ciflow/"; [labelsToDelete] is exactly the current labels not
    in the target and [labelsToAdd] exactly the target labels not among the
    current ones; every label of either list starts with "ciflow/";
    [setLabels] issues one remove-label call per entry of [labelsToDelete],
    then one add-labels call with [labelsToAdd], and leaves [dispatch_labels]
    equal to the target. *)
Theorem setLabels_reconciles (platform : list Effect -> Call -> bool)
    (s0 s1 : Bot) (d cur : list string) (o r : option string)
    (tr : list Effect) :
  setContext s0 = Returned s1 ->
  pr_labels s1 = Some cur ->
  payload_owner_login (ctx s1) = Returned o ->
  payload_repo_name (ctx s1) = Returned r ->
  (forall h c, platform h c = true) ->
  let s := set_dispatch_labels d s1 in
  let target := labels s in
  let del := labelsToDelete target cur in
  let add := labelsToAdd target cur in
  (forall l, In l target <->
             In l d /\ startsWith l pr_label_prefix = true) /\
  (forall l, In l del <-> In l cur /\ ~ In l target) /\
  (forall l, In l add <-> In l target /\ ~ In l cur) /\
  Forall (fun l => startsWith l pr_label_prefix = true) del /\
  Forall (fun l => startsWith l pr_label_prefix = true) add /\
  exists s',
    setLabels platform s tr =
      (Returned s',
       tr ++ map (fun l => Api (removeLabel o r (pr_number s1) l)) del
          ++ [Api (addLabels o r (pr_number s1) add)]) /\
    dispatch_labels s' = target.
Proof.
  intros E Hp Ho Hr Hres s target del add.
  assert (Hcur : Forall (fun l => startsWith l pr_label_prefix = true) cur).
  { destruct (setContext_returns s0)
      as (s1' & E' & _ & _ & _ & _ & _ & Hl & _).
    rewrite E in E'. injection E' as <-. rewrite Hp in Hl.
    destruct (opt_bind (payload_pr (ctx s0)) Issue.labels) as [ls|];
      [|discriminate].
    cbn in Hl. injection Hl as ->. apply namespaced_prefixed. }
  split.
  { intros l.
    exact (filter_In (fun label => startsWith label pr_label_prefix) l d). }
  split; [intros l; apply labelsToDelete_In|].
  split; [intros l; apply labelsToAdd_In|].
  split.
  { apply Forall_forall. intros l Hl. apply labelsToDelete_In in Hl.
    rewrite Forall_forall in Hcur. apply Hcur. tauto. }
  split.
  { apply Forall_forall. intros l Hl. apply labelsToAdd_In in Hl.
    pose proof (labels_prefixed s) as Hs. rewrite Forall_forall in Hs.
    apply Hs. tauto. }
  exists (set_dispatch_labels (labels s) s).
  split; [|reflexivity].
  exact (setLabels_resolves platform Hres s Ho Hr tr Hp).
Qed.

Lemma setLabels_reconciles_witness :
  let c := Samples.issue_comment "zhouzhuojie" "zhouzhuojie"
             ["bug"; "ciflow/old"; "ciflow/cuda"] "@pytorchbot ciflow" in
  let d := ["ciflow/default"; "ciflow/cuda"; "triaged"] in
  exists s1 s',
    setContext (new c) = Returned s1 /\
    pr_labels s1 = Some ["ciflow/old"; "ciflow/cuda"] /\
    setLabels Samples.resolves (set_dispatch_labels d s1) [] =
      (Returned s',
       [Api (removeLabel (Some "pytorch") (Some "pytorch") (Some 61888%Z)
               "ciflow/old");
        Api (addLabels (Some "pytorch") (Some "pytorch") (Some 61888%Z)
               ["ciflow/default"])]) /\
    dispatch_labels s' = ["ciflow/default"; "ciflow/cuda"].
Proof.
  intros c d.
  destruct (setContext (new c)) as [s1|e] eqn:E; [|discriminate E].
  assert (Hs : pr_labels s1 = Some ["ciflow/old"; "ciflow/cuda"] /\
               payload_owner_login (ctx s1) = Returned (Some "pytorch") /\
               payload_repo_name (ctx s1) = Returned (Some "pytorch") /\
               pr_number s1 = Some 61888%Z).
  { vm_compute in E. injection E as <-. repeat split. }
  destruct Hs as (Hp & Ho & Hr & Hn).
  destruct (@setLabels_reconciles Samples.resolves (new c) s1 d _ _ _ []
              E Hp Ho Hr (fun _ _ => eq_refl))
    as (_ & _ & _ & _ & _ & s' & Es & Hd).
  exists s1, s'. split; [reflexivity|]. split; [exact Hp|].
  rewrite Es, Hd, Hn. split; reflexivity.
Defined.

(** C4. A second run on a reconciled pull request changes nothing: when the
    current labels of the second delivery are the dispatch labels the first
    run ended with, the pipeline of the second run returns and both
    [labelsToAdd] and [labelsToDelete] are empty. *)
Theorem second_run_is_noop (platform : list Effect -> Call -> bool)
    (c1 c2 : Context.t) (s1 s1a s1b s2 : Bot) (tr0 tr1 tr2 tr : list Effect) :
  setContext (new c1) = Returned s1 ->
  run_strategies (dispatch_strategies s1) s1 tr0 = (Returned s1a, tr1) ->
  setLabels platform s1a tr1 = (Returned s1b, tr2) ->
  setContext (new c2) = Returned s2 ->
  pr_labels s2 = Some (dispatch_labels s1b) ->
  exists s2a,
    run_strategies (dispatch_strategies s2) s2 tr = (Returned s2a, tr) /\
    labelsToAdd (labels s2a) (dispatch_labels s1b) = [] /\
    labelsToDelete (labels s2a) (dispatch_labels s1b) = [].
Proof.
  intros E1 R1 L1 E2 Hp.
  destruct (setContext_returns (new c1)) as (x & Ex & _ & _ & Hd1 & Hs1 & _).
  rewrite E1 in Ex. injection Ex as <-. cbn in Hd1, Hs1.
  destruct (setContext_returns (new c2)) as (x & Ex & _ & _ & Hd2 & Hs2 & _).
  rewrite E2 in Ex. injection Ex as <-. cbn in Hd2, Hs2.
  (* the first run ends with the default label among its dispatch labels *)
  assert (Hdef : In "ciflow/default" (dispatch_labels s1b)).
  { apply setLabels_returned in L1. subst s1b. cbn.
    rewrite Hs1 in R1. cbn in R1. unfold bind, dispatch_strategy_func in R1.
    cbn in R1. rewrite Hd1 in R1. cbn in R1.
    destruct (pr_labels s1) as [cur|]; [|discriminate].
    cbn in R1. injection R1 as <- _.
    unfold labels. cbn. left. reflexivity. }
  assert (Hpre : forall l, In l (dispatch_labels s1b) ->
                           startsWith l pr_label_prefix = true).
  { apply setLabels_returned in L1. subst s1b. cbn.
    intros l Hl. apply filter_In in Hl. tauto. }
  rewrite Hs2, (run_default s2 tr Hd2 Hp).
  eexists. split; [reflexivity|].
  assert (Hin : forall l, In l (dispatch_labels s1b) ->
    In l (labels (set_dispatch_labels
                    ("ciflow/default" :: dispatch_labels s1b) s2))).
  { intros l Hl. unfold labels. apply filter_In. split.
    - cbn [dispatch_labels set_dispatch_labels]. right. exact Hl.
    - apply Hpre, Hl. }
  split.
  - unfold labelsToAdd. apply filter_nil_iff. intros l Hl.
    apply negb_false_iff, eqb_includes.
    unfold labels in Hl. apply filter_In in Hl.
    cbn [dispatch_labels set_dispatch_labels] in Hl.
    destruct Hl as [[<- | Hl] _]; assumption.
  - unfold labelsToDelete. apply filter_nil_iff. intros l Hl.
    apply negb_false_iff, eqb_includes, Hin, Hl.
Qed.

Lemma second_run_is_noop_witness :
  let c1 := Samples.pull_request "zhouzhuojie" ["bug"; "ciflow/cuda"] in
  let c2 := Samples.pull_request "zhouzhuojie"
              ["bug"; "ciflow/default"; "ciflow/cuda"] in
  exists s2 s2a,
    setContext (new c2) = Returned s2 /\
    run_strategies (dispatch_strategies s2) s2 [] = (Returned s2a, []) /\
    labelsToAdd (labels s2a) ["ciflow/default"; "ciflow/cuda"] = [] /\
    labelsToDelete (labels s2a) ["ciflow/default"; "ciflow/cuda"] = [].
Proof.
  intros c1 c2.
  destruct (setContext (new c1)) as [s1|] eqn:E1; [|discriminate E1].
  destruct (run_strategies (dispatch_strategies s1) s1 [])
    as [[s1a|] tr1] eqn:R1;
    [|vm_compute in E1; injection E1 as <-; discriminate R1].
  destruct (setLabels Samples.resolves s1a tr1) as [[s1b|] tr2] eqn:L1;
    [|vm_compute in E1; injection E1 as <-; vm_compute in R1;
      injection R1 as <- <-; discriminate L1].
  destruct (setContext (new c2)) as [s2|] eqn:E2; [|discriminate E2].
  assert (Hd : dispatch_labels s1b = ["ciflow/default"; "ciflow/cuda"]).
  { vm_compute in E1. injection E1 as <-. vm_compute in R1.
    injection R1 as <- <-. vm_compute in L1. injection L1 as <- _.
    reflexivity. }
  assert (Hp : pr_labels s2 = Some (dispatch_labels s1b)).
  { rewrite Hd. vm_compute in E2. injection E2 as <-. reflexivity. }
  destruct (@second_run_is_noop Samples.resolves c1 c2 s1 s1a s1b s2
              [] tr1 tr2 [] E1 R1 L1 E2 Hp)
    as (s2a & R2 & Ha & Hdel).
  rewrite Hd in Ha, Hdel. exists s2, s2a. auto.
Defined.

(** C8. Starting from the instance [setContext] leaves, whatever the keys of
    the pipeline, the pipeline returns and every dispatch label is a current
    namespaced label of the pull request or "ciflow/default"; the same holds
    of the dispatch labels [setLabels] leaves, and [setLabels] does return
    when the repository owner is present and the platform calls resolve. *)
Theorem dispatch_labels_origin (c : Context.t) (names : list string)
    (s1 : Bot) (cur : list string) (tr : list Effect) :
  setContext (new c) = Returned s1 ->
  pr_labels s1 = Some cur ->
  let known := fun l => In l cur \/ l = "ciflow/default" in
  exists s2 tr2,
    run_strategies names s1 tr = (Returned s2, tr2) /\
    Forall known (dispatch_labels s2) /\
    (forall platform s3 tr3,
       setLabels platform s2 tr2 = (Returned s3, tr3) ->
       Forall known (dispatch_labels s3)) /\
    (forall platform o,
       (forall h k, platform h k = true) ->
       payload_owner_login c = Returned o ->
       exists s3 tr3,
         setLabels platform s2 tr2 = (Returned s3, tr3) /\
         Forall known (dispatch_labels s3)).
Proof.
  intros E Hp known.
  destruct (setContext_returns (new c)) as (x & Ex & Hc & _ & Hd & _).
  rewrite E in Ex. injection Ex as <-. cbn in Hc, Hd.
  destruct (run_strategies_invariant names s1 tr Hp)
    as (s2 & tr2 & R & Hp2 & Hc2 & Hk).
  { rewrite Hd. constructor. }
  assert (Hl : Forall known (labels s2)).
  { apply Forall_forall. intros l Hl. apply filter_In in Hl.
    rewrite Forall_forall in Hk. apply Hk. tauto. }
  exists s2, tr2. split; [exact R|]. split; [exact Hk|]. split.
  - intros platform s3 tr3 L. apply setLabels_returned in L. subst s3.
    exact Hl.
  - intros platform o Hres Ho. rewrite <- Hc, <- Hc2 in Ho.
    destruct (payload_owner_repo _ Ho) as [r Hr].
    do 2 eexists.
    split; [exact (setLabels_resolves platform Hres s2 Ho Hr tr2 Hp2)|].
    exact Hl.
Qed.

Lemma dispatch_labels_origin_witness :
  let c := Samples.issue_comment "zhouzhuojie" "zhouzhuojie"
             ["bug"; "ciflow/cuda"] "@pytorchbot ciflow" in
  exists s1 s2 tr2,
    setContext (new c) = Returned s1 /\
    pr_labels s1 = Some ["ciflow/cuda"] /\
    run_strategies ["strategy_infer_labels"; strategy_add_default_labels]
      s1 [] = (Returned s2, tr2) /\
    Forall (fun l => In l ["ciflow/cuda"] \/ l = "ciflow/default")
      (dispatch_labels s2).
Proof.
  intros c.
  destruct (setContext (new c)) as [s1|] eqn:E; [|discriminate E].
  assert (Hp : pr_labels s1 = Some ["ciflow/cuda"]).
  { vm_compute in E. injection E as <-. reflexivity. }
  destruct (@dispatch_labels_origin c
              ["strategy_infer_labels"; strategy_add_default_labels]
              s1 ["ciflow/cuda"] [] E Hp)
    as (s2 & tr2 & R & Hk & _).
  exists s1, s2, tr2. auto.
Defined.

(** C3. A [pull_request] delivery whose author is a rollout user and whose
    pull request has no namespaced label: the handler returns with
    [dispatch_labels] equal to ["ciflow/default"]; between its two info
    records it issues exactly one add-labels call with ["ciflow/default"], no
    remove-label call, one add-assignees call for the bot login and then one
    remove-assignees call for the same login.  The remove-assignees call is
    issued only once the add-assignees call has resolved: on any platform,
    it appears in the trace only if the platform resolved the add-assignees
    call. *)
Theorem opened_by_rollout_user (platform : list Effect -> Call -> bool)
    (number : option Z) (author : string) (ls : list Label.t)
    (issue : option Issue.t) (comment : option Comment.t)
    (repo_owner : User.t) (repo_name : option string) :
  let c :=
    Context.Make event_pull_request
      (Some (Payload.Make
               (Some (Issue.Make number (Some (User.Make (Some author)))
                        (Some ls)))
               issue comment
               (Some (Repository.Make (Some repo_owner) repo_name)))) in
  let o := User.login repo_owner in
  let al := addLabels o repo_name number ["ciflow/default"] in
  let aa := addAssignees o repo_name number [bot_assignee] in
  let ra := removeAssignees o repo_name number [bot_assignee] in
  In author rollout_users ->
  namespaced ls = [] ->
  (forall h k, platform h k = true) ->
  exists s' started success,
    webhookHandler platform c [] =
      (Returned s',
       [Log Info (LogDispatch started) "ciflow dispatch started!";
        Api al; Api aa; Api ra;
        Log Info (LogDispatch success) "ciflow dispatch success!"]) /\
    dispatch_labels s' = ["ciflow/default"] /\
    log_dispatch_labels success = ["ciflow/default"] /\
    forall platform',
      In ra (calls (snd (webhookHandler platform' c []))) ->
      platform'
        [Log Info (LogDispatch started) "ciflow dispatch started!"; Api al]
        aa = true.
Proof.
  intros c o al aa ra Hin Hns Hres.
  destruct (setContext_returns (new c))
    as (s1 & E & Hc & Hev & Hd & Hs & Ha & Hl & Hn & Ho & Hr).
  cbn in Hc, Hev, Hd, Hs, Ha, Hl, Hn, Ho, Hr. rewrite Hns in Hl.
  assert (Hroll : rollout s1 = true).
  { apply rollout_iff. exists author. auto. }
  assert (Hol : payload_owner_login (ctx s1) = Returned o)
    by (rewrite Hc; reflexivity).
  assert (Hrn : payload_repo_name (ctx s1) = Returned repo_name)
    by (rewrite Hc; reflexivity).
  assert (Hh : forall p,
    webhookHandler p c [] =
    dispatch p s1
      [Log Info (LogDispatch (dispatch_info s1)) "ciflow dispatch started!"]).
  { intros p. unfold webhookHandler.
    rewrite (handler_unfold p _ [] E), (valid_pull_request _ _ Hev), Hroll.
    reflexivity. }
  assert (Hdis := fun p =>
    dispatch_unlabelled p s1
      [Log Info (LogDispatch (dispatch_info s1)) "ciflow dispatch started!"]
      Hd Hs Hl Hol Hrn).
  cbv zeta in Hdis. rewrite Hn, Ho, Hr in Hdis.
  fold o al aa ra in Hdis.
  do 3 eexists. rewrite Hh, Hdis, !Hres. cbn [app].
  split; [reflexivity|]. split; [reflexivity|]. split; [reflexivity|].
  intros p. rewrite Hh, Hdis. cbn [app].
  destruct (p _ al); [|cbn; intros [H|[]]; discriminate H].
  destruct (p _ aa); [reflexivity|].
  cbn. intros [H|[H|[]]]; discriminate H.
Qed.

Lemma opened_by_rollout_user_witness :
  let c := Samples.pull_request "zhouzhuojie" ["bug"] in
  exists s' tr,
    webhookHandler Samples.resolves c [] = (Returned s', tr) /\
    dispatch_labels s' = ["ciflow/default"] /\
    calls tr =
      [addLabels (Some "pytorch") (Some "pytorch") (Some 61888%Z)
         ["ciflow/default"];
       addAssignees (Some "pytorch") (Some "pytorch") (Some 61888%Z)
         ["pytorchbot"];
       removeAssignees (Some "pytorch") (Some "pytorch") (Some 61888%Z)
         ["pytorchbot"]].
Proof.
  intros c.
  destruct (@opened_by_rollout_user Samples.resolves (Some 61888%Z)
              "zhouzhuojie" [Label.Make "bug"] None None
              (User.Make (Some "pytorch")) (Some "pytorch")
              (or_introl eq_refl) eq_refl (fun _ _ => eq_refl))
    as (s' & started & success & E & Hd & _).
  exists s'. eexists. split; [exact E|]. split; [exact Hd | reflexivity].
Defined.

(** * Further properties *)

(** ** The matcher finds every match *)

Lemma append_nil_r (a : string) : (a ++ "")%string = a.
Proof. induction a as [|x a IH]; simpl; [reflexivity | now rewrite IH]. Qed.

Lemma length_append (a b : string) :
  String.length (a ++ b) = String.length a + String.length b.
Proof. induction a as [|x a IH]; simpl; [reflexivity | now rewrite IH]. Qed.

Lemma substring_prefix (w s : string) :
  substring 0 (String.length w) (w ++ s) = w.
Proof.
  induction w as [|x w IH]; simpl.
  - now destruct s.
  - now rewrite IH.
Qed.

Lemma mlit_complete (l : string) :
  forall p s, mlit l p (l ++ s) = Some (p + String.length l, s).
Proof.
  induction l as [|a l IH]; intros p s; simpl.
  - now rewrite Nat.add_0_r.
  - rewrite Ascii.eqb_refl, IH. do 2 f_equal. lia.
Qed.

Lemma mrep_complete (cs : charset) (c : list (option string)) (k : cont) :
  forall w s lo hi p,
    str_forall (in_class cs) w = true ->
    lo <= String.length w ->
    within hi (String.length w) ->
    k (MState (p + String.length w) s c) <> None ->
    mrep cs lo hi p (w ++ s) c k <> None.
Proof.
  induction w as [|a w IH]; intros s lo hi p Hw Hlo Hhi Hk.
  - simpl in Hlo, Hk. rewrite Nat.add_0_r in Hk.
    assert (lo = 0) by lia. subst lo. simpl (EmptyString ++ s)%string.
    destruct s as [|b s]; simpl; [exact Hk|].
    destruct (in_class cs b && more hi); [|exact Hk].
    destruct (mrep cs 0 (option_map Nat.pred hi) (S p) s c k);
      [discriminate | exact Hk].
  - simpl in Hw, Hlo, Hhi, Hk. apply andb_prop in Hw. destruct Hw as [Ha Hw].
    simpl. rewrite Ha.
    assert (Hm : more hi = true).
    { destruct hi as [[|h]|]; simpl in *; [lia | reflexivity | reflexivity]. }
    rewrite Hm. cbn [andb].
    assert (H : mrep cs (Nat.pred lo) (option_map Nat.pred hi) (S p)
                  (w ++ s) c k <> None).
    { apply IH; try assumption; try lia.
      - destruct hi as [h|]; simpl in *; lia.
      - replace (S p + String.length w) with (p + S (String.length w))
          by lia. exact Hk. }
    destruct (mrep cs (Nat.pred lo) (option_map Nat.pred hi) (S p)
                (w ++ s) c k); [discriminate | contradiction].
Qed.

(** Backtracking loses no match: when the pattern can take the matcher to
    a state the continuation accepts, [mtch] succeeds. *)
Lemma mtch_complete (r : regex) (st st' : mstate) :
  matches r st st' ->
  forall k, k st' <> None -> mtch r st k <> None.
Proof.
  induction 1 as [st Hp|st Hr|l st s' Hr|cs lo hi st w s' Hr Hw Hlo Hhi
                 |r1 r2 st st1 st2 _ IH1 _ IH2|i r st st1 _ IH];
    intros k Hk; simpl.
  - rewrite Hp. exact Hk.
  - rewrite Hr. exact Hk.
  - rewrite Hr, mlit_complete. exact Hk.
  - rewrite Hr. now apply mrep_complete.
  - apply IH1, IH2, Hk.
  - apply IH. exact Hk.
Qed.

(** A successful [exec] from index [p] matched at [p + length pre]. *)
Lemma exec_from_index (re : regex) (n : nat) :
  forall s p found, exec_from re n p s = Some found ->
    exists pre t st,
      s = (pre ++ t)%string /\
      matches re (MState (p + String.length pre) t (repeat None (S n))) st /\
      found =
        upd 0 (Some (substring 0 (pos st - (p + String.length pre)) t))
          (caps st).
Proof.
  induction s as [|a s IH]; intros p found H; simpl in H.
  - destruct (mtch re _ Some) as [st|] eqn:E; [|discriminate].
    injection H as <-. apply mtch_sound in E.
    destruct E as (st' & M & E). injection E as ->.
    exists EmptyString, EmptyString, st. simpl. rewrite Nat.add_0_r. auto.
  - destruct (mtch re _ Some) as [st|] eqn:E.
    + injection H as <-. apply mtch_sound in E.
      destruct E as (st' & M & E). injection E as ->.
      exists EmptyString, (String a s), st. simpl. rewrite Nat.add_0_r. auto.
    + apply IH in H. destruct H as (pre & t & st & -> & M & ->).
      exists (String a pre), t, st. simpl.
      replace (p + S (String.length pre)) with (S p + String.length pre)
        by lia. auto.
Qed.

Lemma exec_from_unfold (re : regex) (n p : nat) (s : string) :
  exec_from re n p s =
    match mtch re (MState p s (repeat None (S n))) Some with
    | Some st => Some (upd 0 (Some (substring 0 (pos st - p) s)) (caps st))
    | None =>
        match s with
        | EmptyString => None
        | String _ s' => exec_from re n (S p) s'
        end
    end.
Proof. destruct s; reflexivity. Qed.

(** ** The shape of a parsed comment *)

(** What the pattern of [parseComment] asks of a comment body: a prefix
    and a tail without line terminators around the mention, the spaces
    after it, the command word and at most one space. *)
Lemma re_matches_decompose (q : nat) (t : string) (st : mstate) :
  matches re (MState q t (repeat None 3)) st ->
  exists pre ws cmd sp tail,
    t = (pre ++ ("@" ++ bot_app_name) ++ ws ++ cmd ++ sp ++ tail)%string /\
    q = 0 /\
    str_forall (in_class Dot) pre = true /\
    str_forall (in_class Space) ws = true /\ 1 <= String.length ws /\
    str_forall (in_class Word) cmd = true /\ 1 <= String.length cmd /\
    str_forall (in_class Space) sp = true /\ String.length sp <= 1 /\
    str_forall (in_class Dot) tail = true /\
    caps st = [None; Some cmd; Some tail].
Proof.
  unfold re, Star, Plus, Opt. intros H.
  repeat match goal with
  | M : matches (Cat _ _) _ _ |- _ => inv M
  | M : matches (Grp _ _) _ _ |- _ => inv M
  | M : matches (Rep _ _ _) _ _ |- _ => inv M
  | M : matches (Lit _) _ _ |- _ => inv M
  | M : matches Bol _ _ |- _ => inv M
  | M : matches Eol _ _ |- _ => inv M
  end.
  cbn [pos rest caps repeat upd within] in *. subst.
  repeat match goal with
  | |- context [?a + ?b - ?a] => replace (a + b - a) with b by lia
  end.
  rewrite !substring_prefix.
  do 5 eexists. split; [reflexivity|].
  rewrite append_nil_r. auto 12.
Qed.

Lemma match_re_shape (body : string) (found : list (option string)) :
  match_ body re 2 = Some found ->
  exists pre ws cmd sp tail,
    body = (pre ++ ("@" ++ bot_app_name) ++ ws ++ cmd ++ sp ++ tail)%string /\
    str_forall (in_class Dot) pre = true /\
    str_forall (in_class Space) ws = true /\ 1 <= String.length ws /\
    str_forall (in_class Word) cmd = true /\ 1 <= String.length cmd /\
    str_forall (in_class Space) sp = true /\ String.length sp <= 1 /\
    str_forall (in_class Dot) tail = true /\
    exists whole, found = [Some whole; Some cmd; Some tail].
Proof.
  unfold match_. intros H. apply exec_from_index in H.
  destruct H as (pre0 & t & st & -> & M & ->).
  apply re_matches_decompose in M.
  destruct M as (pre & ws & cmd & sp & tail & -> & Hq & H).
  destruct pre0; [|discriminate Hq]. simpl (EmptyString ++ _)%string.
  exists pre, ws, cmd, sp, tail.
  destruct H as (H1 & H2 & H3 & H4 & H5 & H6 & H7 & H8 & ->).
  cbn [upd]. eauto 15.
Qed.

(** X1. [parseComment] never throws.  It leaves the instance as it is, or
    the comment body is: a prefix without line terminator, the mention
    "@pytorchbot", one or more whitespace characters, a non-empty word, at
    most one whitespace character and a tail without line terminator; then
    [command] is that word and [command_args] is the tail split on single
    spaces. *)
Theorem parseComment_shape (s : Bot) :
  parseComment s = Returned s \/
  exists body pre ws cmd sp tail,
    comment_body s = Some body /\
    body = (pre ++ ("@" ++ bot_app_name) ++ ws ++ cmd ++ sp ++ tail)%string /\
    str_forall (in_class Dot) pre = true /\
    str_forall (in_class Space) ws = true /\ 1 <= String.length ws /\
    str_forall (in_class Word) cmd = true /\ 1 <= String.length cmd /\
    str_forall (in_class Space) sp = true /\ String.length sp <= 1 /\
    str_forall (in_class Dot) tail = true /\
    parseComment s =
      Returned (set_command_args (split " " tail)
                  (set_command (Some cmd) s)).
Proof.
  unfold parseComment. destruct (comment_body s) as [body|]; [|now left].
  destruct (match_ body re 2) as [found|] eqn:E; [|now left].
  right. apply match_re_shape in E.
  destruct E as (pre & ws & cmd & sp & tail & Hb & H1 & H2 & H3 & H4 & H5
                 & H6 & H7 & H8 & whole & ->).
  exists body, pre, ws, cmd, sp, tail. cbn. auto 15.
Qed.

(** X2. Every comment of that shape is recognised: [parseComment] sets
    [command] to a non-empty word and [command_args] to a split tail. *)
Theorem parseComment_complete (s : Bot)
    (body pre ws cmd sp tail : string) :
  comment_body s = Some body ->
  body = (pre ++ ("@" ++ bot_app_name) ++ ws ++ cmd ++ sp ++ tail)%string ->
  str_forall (in_class Dot) pre = true ->
  str_forall (in_class Space) ws = true -> 1 <= String.length ws ->
  str_forall (in_class Word) cmd = true -> 1 <= String.length cmd ->
  str_forall (in_class Space) sp = true -> String.length sp <= 1 ->
  str_forall (in_class Dot) tail = true ->
  exists cmd' tail',
    str_forall (in_class Word) cmd' = true /\ 1 <= String.length cmd' /\
    parseComment s =
      Returned (set_command_args (split " " tail')
                  (set_command (Some cmd') s)).
Proof.
  intros Hs Hb Hpre Hws Hws1 Hcmd Hcmd1 Hsp Hsp1 Htail.
  assert (M : exists st,
    matches re (MState 0 body (repeat None 3)) st).
  { subst body. rewrite <- (append_nil_r tail).
    unfold re, Star, Plus, Opt. eexists.
    eapply matches_Cat; [apply matches_Bol; reflexivity|].
    eapply matches_Cat.
    { eapply (@matches_Rep Dot 0 None _ pre); cbn [rest];
        [reflexivity | assumption | lia | exact I]. }
    eapply matches_Cat; [eapply matches_Lit; cbn [rest]; reflexivity|].
    eapply matches_Cat.
    { eapply (@matches_Rep Space 1 None _ ws); cbn [rest];
        [reflexivity | assumption | lia | exact I]. }
    eapply matches_Cat.
    { eapply matches_Grp.
      eapply (@matches_Rep Word 1 None _ cmd); cbn [rest];
        [reflexivity | assumption | lia | exact I]. }
    eapply matches_Cat.
    { eapply (@matches_Rep Space 0 (Some 1) _ sp); cbn [rest];
        [reflexivity | assumption | lia | exact Hsp1]. }
    eapply matches_Cat.
    { eapply matches_Grp.
      eapply (@matches_Rep Dot 0 None _ tail); cbn [rest];
        [reflexivity | assumption | lia | exact I]. }
    apply matches_Eol. reflexivity. }
  destruct M as [st M].
  assert (E : exists found, match_ body re 2 = Some found).
  { assert (H : mtch re (MState 0 body (repeat None 3)) Some <> None)
      by (apply (mtch_complete M); discriminate).
    unfold match_. rewrite exec_from_unfold.
    destruct (mtch re _ Some) as [x|];
      [eexists; reflexivity | contradiction]. }
  destruct E as [found E]. pose proof E as E'. apply match_re_shape in E'.
  destruct E' as (_ & _ & cmd' & _ & tail' & _ & _ & _ & _ & H5 & H6 & _ & _
                  & _ & whole & ->).
  exists cmd', tail'. split; [exact H5|]. split; [exact H6|].
  unfold parseComment. rewrite Hs, E. reflexivity.
Qed.

Lemma parseComment_complete_witness :
  let s := set_comment_body (Some "cc @pytorchbot  ciflow all")
             (new (Context.Make "issue_comment" None)) in
  exists cmd' tail',
    1 <= String.length cmd' /\
    parseComment s =
      Returned (set_command_args (split " " tail')
                  (set_command (Some cmd') s)).
Proof.
  intros s.
  destruct (@parseComment_complete s "cc @pytorchbot  ciflow all"
              "cc " "  " "ciflow" " " "all" eq_refl eq_refl eq_refl eq_refl
              (le_S _ _ (le_n 1)) eq_refl
              ltac:(simpl; lia) eq_refl (le_n 1) eq_refl)
    as (cmd' & tail' & _ & H & E).
  exists cmd', tail'. split; [exact H | exact E].
Defined.

(** ** The arguments of a command *)

Lemma split_cons (sep : ascii) (s : string) :
  exists h t, split sep s = h :: t.
Proof.
  destruct s as [|c s]; simpl; [eauto|].
  destruct (Ascii.eqb c sep); [eauto|].
  destruct (split sep s); eauto.
Qed.

Lemma split_concat (sep : ascii) (s : string) :
  String.concat (String sep "") (split sep s) = s.
Proof.
  induction s as [|c s IH]; [reflexivity|].
  simpl split. destruct (split_cons sep s) as (h & t & E).
  rewrite E in *. destruct (Ascii.eqb c sep) eqn:Ec.
  - apply Ascii.eqb_eq in Ec. subst c.
    change (String.concat (String sep "") ("" :: h :: t))
      with (String sep (String.concat (String sep "") (h :: t))).
    now rewrite IH.
  - destruct t as [|x t]; simpl in *; now rewrite IH.
Qed.

Lemma split_no_sep (sep : ascii) (s : string) :
  Forall (fun a => str_forall (fun c => negb (Ascii.eqb c sep)) a = true)
    (split sep s).
Proof.
  induction s as [|c s IH]; simpl.
  - repeat constructor.
  - destruct (Ascii.eqb c sep) eqn:Ec.
    + constructor; [reflexivity | exact IH].
    + destruct (split sep s) as [|h t].
      * repeat constructor. simpl. now rewrite Ec.
      * inversion IH as [|? ? Hh Ht]; subst.
        constructor; [|exact Ht]. simpl. now rewrite Ec, Hh.
Qed.

(** X3. When [parseComment] returns it has left [command_args] as it was, or
    [command_args] is a non-empty list none of whose elements holds a space,
    and joining its elements with single spaces gives back a suffix of the
    comment body that holds no line terminator: consecutive spaces give
    empty arguments, nothing is trimmed or dropped. *)
Theorem command_args_rejoin (s s' : Bot) :
  parseComment s = Returned s' ->
  command_args s' = command_args s \/
  (command_args s' <> [] /\
   Forall (fun a => str_forall (fun c => negb (Ascii.eqb c " ")) a = true)
     (command_args s') /\
   str_forall (in_class Dot) (String.concat " " (command_args s')) = true /\
   exists body pre,
     comment_body s = Some body /\
     body = (pre ++ String.concat " " (command_args s'))%string).
Proof.
  intros H.
  destruct (parseComment_cases s) as [E | (body & w & g1 & g2 & Hb & Hm & E)];
    rewrite E in H; injection H as <-; [now left|].
  right. cbn [command_args set_command_args].
  split; [destruct (split_cons " " g2) as (h & t & ->); discriminate|].
  split; [apply split_no_sep|].
  change " "%string with (String " "%char "").
  rewrite split_concat.
  apply match_re_shape in Hm.
  destruct Hm as (pre & ws & cmd & sp & tail & Hbody & _ & _ & _ & _ & _ & _
                  & _ & Ht & whole & Hf).
  injection Hf as _ _ <-. split; [exact Ht|].
  exists body, (pre ++ ("@" ++ bot_app_name) ++ ws ++ cmd ++ sp)%string.
  split; [exact Hb|]. rewrite Hbody.
  rewrite <- !append_assoc. reflexivity.
Qed.

Lemma command_args_rejoin_witness :
  let s := set_comment_body (Some "@pytorchbot ciflow a  b")
             (new (Context.Make "issue_comment" None)) in
  exists s',
    parseComment s = Returned s' /\
    command_args s' = ["a"; ""; "b"] /\
    String.concat " " (command_args s') = "a  b".
Proof.
  intros s.
  assert (E : parseComment s =
              Returned (set_command_args ["a"; ""; "b"]
                          (set_command (Some "ciflow") s)))
    by (vm_compute; reflexivity).
  eexists. split; [exact E|]. split; [reflexivity|].
  destruct (command_args_rejoin s E) as [H | (_ & _ & _ & _)];
    [discriminate H | reflexivity].
Defined.

(** ** The pipeline in closed form *)

Lemma set_dispatch_labels_same (s : Bot) :
  set_dispatch_labels (dispatch_labels s) s = s.
Proof. now destruct s. Qed.

Lemma repeat_shift {A} (x : A) (n : nat) (l : list A) :
  repeat x n ++ x :: l = x :: repeat x n ++ l.
Proof.
  induction n as [|n IH]; simpl; [reflexivity | now rewrite IH].
Qed.

(** Once the accumulator is not empty, [pr_labels] is not read again. *)
Lemma run_strategies_seeded (names : list string) :
  forall s tr,
    dispatch_labels s <> [] ->
    run_strategies names s tr =
      (Returned
         (set_dispatch_labels
            (repeat "ciflow/default"
               (count_occ string_dec names strategy_add_default_labels)
             ++ dispatch_labels s) s),
       tr ++ map (fun k => Log Error (LogStrategyName k)
                             "Unknown dispatch strategy")
               (filter (fun k =>
                  negb (k =? strategy_add_default_labels)%string) names)).
Proof.
  induction names as [|k ns IH]; intros s tr Hne.
  - cbn. unfold ret. now rewrite set_dispatch_labels_same, app_nil_r.
  - cbn [run_strategies]. unfold bind at 1, dispatch_strategy_func.
    destruct (String.eqb_spec k strategy_add_default_labels) as [->|Hk].
    + destruct (dispatch_labels s) as [|x acc] eqn:Ed; [contradiction|].
      cbn [List.length Nat.eqb ret].
      rewrite IH by discriminate.
      rewrite count_occ_cons_eq by reflexivity.
      cbn [dispatch_labels set_dispatch_labels filter]. rewrite String.eqb_refl.
      cbn [negb repeat app]. rewrite repeat_shift. reflexivity.
    + unfold bind, emit, ret. rewrite IH by assumption.
      rewrite count_occ_cons_neq by congruence.
      cbn [filter]. destruct (String.eqb_spec k strategy_add_default_labels);
        [contradiction|].
      cbn [negb map]. now rewrite <- app_assoc.
Qed.

(** X4. The pipeline in closed form, from the empty accumulator of a fresh
    instance and for any list of keys: the dispatch labels are one
    "ciflow/default" per occurrence of the default key, in front of the
    current labels of the pull request (duplicates kept), or stay empty when
    the default key does not occur; one error is logged per unknown key, in
    order; nothing throws. *)
Theorem run_strategies_closed_form (names : list string) (s : Bot)
    (cur : list string) (tr : list Effect) :
  dispatch_labels s = [] ->
  pr_labels s = Some cur ->
  let n := count_occ string_dec names strategy_add_default_labels in
  run_strategies names s tr =
    (Returned
       (set_dispatch_labels
          (repeat "ciflow/default" n ++ (if Nat.eqb n 0 then [] else cur))
          s),
     tr ++ map (fun k => Log Error (LogStrategyName k)
                           "Unknown dispatch strategy")
             (filter (fun k =>
                negb (k =? strategy_add_default_labels)%string) names)).
Proof.
  intros Hd Hp. revert tr.
  induction names as [|k ns IH]; intros tr.
  - cbn. unfold ret. rewrite <- Hd at 1.
    now rewrite set_dispatch_labels_same, app_nil_r.
  - cbn [run_strategies]. unfold bind at 1, dispatch_strategy_func.
    destruct (String.eqb_spec k strategy_add_default_labels) as [->|Hk].
    + rewrite Hd, Hp. cbn [List.length Nat.eqb ret].
      rewrite run_strategies_seeded by discriminate.
      rewrite count_occ_cons_eq by reflexivity.
      cbn [dispatch_labels set_dispatch_labels filter].
      rewrite String.eqb_refl.
      cbn [negb repeat app Nat.eqb]. rewrite repeat_shift. reflexivity.
    + unfold bind, emit, ret. cbv zeta in IH. rewrite IH.
      rewrite count_occ_cons_neq by congruence.
      cbn [filter]. destruct (String.eqb_spec k strategy_add_default_labels);
        [contradiction|].
      cbn [negb map]. now rewrite <- app_assoc.
Qed.

Lemma run_strategies_closed_form_witness :
  let s := new (Samples.pull_request "zhouzhuojie" []) in
  let s0 := {|
    ctx := ctx s; command := command s; command_args := command_args s;
    comment_author := comment_author s; comment_body := comment_body s;
    dispatch_labels := []; dispatch_strategies := dispatch_strategies s;
    event := event s; owner := owner s; pr_author := pr_author s;
    pr_labels := Some ["ciflow/default"; "ciflow/cuda"];
    pr_number := pr_number s; repo := repo s |} in
  run_strategies
    [strategy_add_default_labels; "strategy_infer_labels";
     strategy_add_default_labels] s0 [] =
  (Returned
     (set_dispatch_labels
        ["ciflow/default"; "ciflow/default"; "ciflow/default"; "ciflow/cuda"]
        s0),
   [Log Error (LogStrategyName "strategy_infer_labels")
      "Unknown dispatch strategy"]).
Proof.
  intros s s0.
  exact (@run_strategies_closed_form
           [strategy_add_default_labels; "strategy_infer_labels";
            strategy_add_default_labels] s0
           ["ciflow/default"; "ciflow/cuda"] [] eq_refl eq_refl).
Defined.

(** ** Reconciliation converges *)

(** X5. Applying the two lists of [setLabels] to the current labels gives
    the target as a set: a label is current and not deleted, or added, exactly
    when it is a target label; and no label is both deleted and added. *)
Theorem reconciliation_converges (target cur : list string) (l : string) :
  ((In l cur /\ ~ In l (labelsToDelete target cur)) \/
   In l (labelsToAdd target cur) <-> In l target) /\
  ~ (In l (labelsToDelete target cur) /\ In l (labelsToAdd target cur)).
Proof.
  rewrite labelsToDelete_In, labelsToAdd_In.
  destruct (in_dec string_dec l cur), (in_dec string_dec l target); tauto.
Qed.

(** ** The handler on every delivery *)

Lemma filter_all {A} (f : A -> bool) (l : list A) :
  Forall (fun x => f x = true) l -> filter f l = l.
Proof.
  induction 1 as [|x l Hx _ IH]; cbn; [reflexivity|]. now rewrite Hx, IH.
Qed.

Lemma labels_default (s : Bot) (cur : list string) :
  Forall (fun l => startsWith l pr_label_prefix = true) cur ->
  labels (set_dispatch_labels ("ciflow/default" :: cur) s) =
    "ciflow/default" :: cur.
Proof.
  intros H. unfold labels. cbn [dispatch_labels set_dispatch_labels filter].
  change (startsWith "ciflow/default" pr_label_prefix) with true.
  cbn iota. now rewrite filter_all.
Qed.

Lemma labelsToDelete_default (cur : list string) :
  labelsToDelete ("ciflow/default" :: cur) cur = [].
Proof.
  unfold labelsToDelete. apply filter_nil_iff. intros l Hl.
  apply negb_false_iff, eqb_includes. now right.
Qed.

Lemma labelsToAdd_default (cur : list string) :
  labelsToAdd ("ciflow/default" :: cur) cur =
    if includes cur "ciflow/default" then [] else ["ciflow/default"].
Proof.
  unfold labelsToAdd. cbn [filter].
  assert (E : filter (fun l => negb (includes cur l)) cur = []).
  { apply filter_nil_iff. intros l Hl.
    now apply negb_false_iff, eqb_includes. }
  rewrite E. now destruct (includes cur "ciflow/default").
Qed.

Lemma payload_owner_login_cases (c : Context.t) :
  payload_owner_login c = Threw TypeError \/
  exists o r,
    payload_owner_login c = Returned o /\ payload_repo_name c = Returned r /\
    o = opt_bind (opt_bind (opt_bind (Context.payload c) Payload.repository)
                    Repository.owner) User.login /\
    r = opt_bind (opt_bind (Context.payload c) Payload.repository)
          Repository.name.
Proof.
  unfold payload_owner_login, payload_repo_name.
  destruct (opt_bind (Context.payload c) Payload.repository) as [rp|];
    cbn; [|now left].
  destruct (Repository.owner rp) as [ow|]; cbn; [|now left].
  right. do 2 eexists. split; [reflexivity|]. split; [reflexivity|].
  split; reflexivity.
Qed.

(** [dispatch] on a fresh instance whose pull request has no labels array:
    the spread of [undefined] throws before anything is sent. *)
Lemma dispatch_no_labels (platform : list Effect -> Call -> bool)
    (s : Bot) (tr : list Effect) :
  dispatch_labels s = [] ->
  dispatch_strategies s = [strategy_add_default_labels] ->
  pr_labels s = None ->
  dispatch platform s tr = (Threw TypeError, tr).
Proof.
  intros Hd Hs Hp. unfold dispatch. unfold bind at 1. rewrite Hs.
  cbn [run_strategies]. unfold bind at 1, dispatch_strategy_func.
  rewrite String.eqb_refl, Hd, Hp. reflexivity.
Qed.

(** [dispatch] when the payload has no repository owner: reading
    [owner.login] throws before the first call. *)
Lemma dispatch_no_owner (platform : list Effect -> Call -> bool)
    (s : Bot) (cur : list string) (tr : list Effect) :
  dispatch_labels s = [] ->
  dispatch_strategies s = [strategy_add_default_labels] ->
  pr_labels s = Some cur ->
  Forall (fun l => startsWith l pr_label_prefix = true) cur ->
  payload_owner_login (ctx s) = Threw TypeError ->
  dispatch platform s tr = (Threw TypeError, tr).
Proof.
  intros Hd Hs Hp Hcur Ho.
  unfold dispatch. unfold bind at 1. rewrite Hs, (run_default s tr Hd Hp).
  unfold bind at 1. unfold setLabels.
  cbn [pr_labels set_dispatch_labels ctx pr_number]. rewrite Hp.
  rewrite (labels_default s Hcur), labelsToDelete_default.
  cbn [removeLabels]. unfold bind, lift, ret. now rewrite Ho.
Qed.

(** [dispatch] on a fresh instance, whatever the platform answers. *)
Lemma dispatch_fresh (platform : list Effect -> Call -> bool)
    (s : Bot) (cur : list string) (o r : option string) (tr : list Effect) :
  dispatch_labels s = [] ->
  dispatch_strategies s = [strategy_add_default_labels] ->
  pr_labels s = Some cur ->
  Forall (fun l => startsWith l pr_label_prefix = true) cur ->
  payload_owner_login (ctx s) = Returned o ->
  payload_repo_name (ctx s) = Returned r ->
  let al := addLabels o r (pr_number s)
              (if includes cur "ciflow/default" then []
               else ["ciflow/default"]) in
  let aa := addAssignees (owner s) (repo s) (pr_number s) [bot_assignee] in
  let ra := removeAssignees (owner s) (repo s) (pr_number s) [bot_assignee] in
  let s' := set_dispatch_labels ("ciflow/default" :: cur) s in
  dispatch platform s tr =
    if platform tr al then
      if platform (tr ++ [Api al]) aa then
        if platform (tr ++ [Api al; Api aa]) ra then
          (Returned s',
           tr ++ [Api al; Api aa; Api ra;
                  Log Info (LogDispatch (dispatch_info s'))
                    "ciflow dispatch success!"])
        else (Threw RequestError, tr ++ [Api al; Api aa; Api ra])
      else (Threw RequestError, tr ++ [Api al; Api aa])
    else (Threw RequestError, tr ++ [Api al]).
Proof.
  intros Hd Hs Hp Hcur Ho Hr al aa ra s'.
  unfold dispatch. unfold bind at 1. rewrite Hs, (run_default s tr Hd Hp).
  unfold bind at 1. unfold setLabels.
  cbn [pr_labels set_dispatch_labels ctx pr_number]. rewrite Hp.
  rewrite (labels_default s Hcur), labelsToDelete_default,
    labelsToAdd_default.
  cbn [removeLabels].
  unfold signal_github, bind, lift, request, ret, emit.
  rewrite Ho, Hr. subst al aa ra s'. cbv zeta.
  change (owner (set_dispatch_labels _ (set_dispatch_labels _ s)))
    with (owner s).
  change (repo (set_dispatch_labels _ (set_dispatch_labels _ s)))
    with (repo s).
  change (pr_number (set_dispatch_labels _ (set_dispatch_labels _ s)))
    with (pr_number s).
  destruct (platform tr _); [|reflexivity].
  destruct (platform (tr ++ [_]) _);
    [|rewrite <- app_assoc; reflexivity].
  rewrite <- !app_assoc. cbn [app].
  destruct (platform (tr ++ [_; _]) _); reflexivity.
Qed.

(** The handler up to [dispatch], on a fresh instance. *)
Lemma handler_fresh (platform : list Effect -> Call -> bool)
    (c : Context.t) :
  let repository := opt_bind (Context.payload c) Payload.repository in
  exists s1 b errs,
    setContext (new c) = Returned s1 /\
    (forall tr, valid s1 tr = (Returned b, tr ++ errs)) /\
    calls errs = [] /\
    (b = true -> errs = []) /\
    ctx s1 = c /\
    dispatch_labels s1 = [] /\
    dispatch_strategies s1 = [strategy_add_default_labels] /\
    (forall cur, pr_labels s1 = Some cur ->
       Forall (fun l => startsWith l pr_label_prefix = true) cur) /\
    pr_labels s1 =
      option_map namespaced (opt_bind (payload_pr c) Issue.labels) /\
    pr_number s1 = opt_bind (payload_pr c) Issue.number /\
    owner s1 = opt_bind (opt_bind repository Repository.owner) User.login /\
    repo s1 = opt_bind repository Repository.name /\
    webhookHandler platform c [] =
      if b && rollout s1 then
        dispatch platform s1
          [Log Info (LogDispatch (dispatch_info s1))
             "ciflow dispatch started!"]
      else
        (Returned s1,
         Log Info (LogDispatch (dispatch_info s1)) "ciflow dispatch started!"
           :: errs).
Proof.
  intros repository.
  destruct (setContext_returns (new c))
    as (s1 & E & Hc & _ & Hd & Hs & _ & Hl & Hn & Ho & Hr).
  cbn in Hc, Hd, Hs, Hl, Hn, Ho, Hr.
  destruct (valid_trace s1) as (b & errs & Htr & Hcalls & Hcases).
  assert (Hb : b = true -> errs = []).
  { intros ->.
    destruct Hcases as [(_ & H & _) | [(_ & H & _) | (H & _)]];
      [discriminate H | discriminate H | exact H]. }
  exists s1, b, errs. split; [exact E|]. split; [exact Htr|].
  split; [exact Hcalls|]. split; [exact Hb|].
  split; [exact Hc|]. split; [exact Hd|]. split; [exact Hs|]. split.
  { intros cur Hp. rewrite Hp in Hl.
    destruct (opt_bind (payload_pr c) Issue.labels) as [ls|];
      [|discriminate]. cbn in Hl. injection Hl as ->.
    apply namespaced_prefixed. }
  split; [exact Hl|]. split; [exact Hn|]. split; [exact Ho|].
  split; [exact Hr|].
  unfold webhookHandler. rewrite (handler_unfold platform _ [] E), Htr.
  cbn [app]. destruct b; cbn [negb andb]; [|reflexivity].
  rewrite (Hb eq_refl). destruct (rollout s1); reflexivity.
Qed.

(** X6. Any delivery that passes [valid] and [rollout], with a labels array
    and a repository owner, on a platform whose calls resolve: the handler
    issues no remove-label call; its one add-labels call carries
    "ciflow/default" when the pull request lacks it and the empty list when
    it has it; then the assignee is added and removed; and [dispatch_labels]
    ends as "ciflow/default" in front of the current namespaced labels. *)
Theorem accepted_delivery (platform : list Effect -> Call -> bool)
    (c : Context.t) (s1 : Bot) (cur : list string) (o : option string) :
  setContext (new c) = Returned s1 ->
  fst (valid s1 []) = Returned true ->
  rollout s1 = true ->
  pr_labels s1 = Some cur ->
  payload_owner_login c = Returned o ->
  (forall h k, platform h k = true) ->
  let s' := set_dispatch_labels ("ciflow/default" :: cur) s1 in
  o = owner s1 /\
  webhookHandler platform c [] =
    (Returned s',
     [Log Info (LogDispatch (dispatch_info s1)) "ciflow dispatch started!";
      Api (addLabels o (repo s1) (pr_number s1)
             (if includes cur "ciflow/default" then []
              else ["ciflow/default"]));
      Api (addAssignees o (repo s1) (pr_number s1) [bot_assignee]);
      Api (removeAssignees o (repo s1) (pr_number s1) [bot_assignee]);
      Log Info (LogDispatch (dispatch_info s'))
        "ciflow dispatch success!"]).
Proof.
  intros E Hv Hroll Hp Ho Hres s'.
  destruct (handler_fresh platform c)
    as (x & b & errs & Ex & Htr & _ & _ & Hc & Hd & Hs & Hpre & _ & _ & Hown
        & Hrepo & Hh).
  rewrite E in Ex. injection Ex as <-.
  rewrite Htr in Hv. cbn in Hv. injection Hv as ->.
  rewrite Hroll in Hh. cbn [andb] in Hh.
  destruct (payload_owner_login_cases c)
    as [Ht | (o' & r & Ho' & Hr & Eo & Er)]; [congruence|].
  rewrite Ho in Ho'. injection Ho' as <-.
  assert (Eown : o = owner s1) by congruence.
  assert (Erepo : r = repo s1) by congruence.
  split; [exact Eown|].
  rewrite <- Hc in Ho, Hr.
  rewrite Hh, (dispatch_fresh platform s1 _ Hd Hs Hp (Hpre _ Hp) Ho Hr).
  rewrite !Hres. subst s'. rewrite <- Eown, Erepo. reflexivity.
Qed.

Lemma accepted_delivery_witness :
  let c := Samples.issue_comment "zhouzhuojie" "zhouzhuojie"
             ["bug"; "ciflow/default"; "ciflow/old"]
             "@pytorchbot ciflow default" in
  exists s',
    webhookHandler Samples.resolves c [] =
      (Returned s',
       [Log Info
          (LogDispatch
             {| log_dispatch_labels := [];
                log_dispatch_strategies := [strategy_add_default_labels];
                log_event := "issue_comment";
                log_owner := Some "pytorch";
                log_pr_number := Some 61888%Z;
                log_pr_labels := Some ["ciflow/default"; "ciflow/old"];
                log_repo := Some "pytorch" |})
          "ciflow dispatch started!";
        Api (addLabels (Some "pytorch") (Some "pytorch") (Some 61888%Z) []);
        Api (addAssignees (Some "pytorch") (Some "pytorch") (Some 61888%Z)
               ["pytorchbot"]);
        Api (removeAssignees (Some "pytorch") (Some "pytorch")
               (Some 61888%Z) ["pytorchbot"]);
        Log Info
          (LogDispatch
             {| log_dispatch_labels :=
                  ["ciflow/default"; "ciflow/default"; "ciflow/old"];
                log_dispatch_strategies := [strategy_add_default_labels];
                log_event := "issue_comment";
                log_owner := Some "pytorch";
                log_pr_number := Some 61888%Z;
                log_pr_labels := Some ["ciflow/default"; "ciflow/old"];
                log_repo := Some "pytorch" |})
          "ciflow dispatch success!"]).
Proof.
  intros c.
  assert (Hs : exists s1,
    setContext (new c) = Returned s1 /\
    fst (valid s1 []) = Returned true /\ rollout s1 = true /\
    pr_labels s1 = Some ["ciflow/default"; "ciflow/old"] /\
    dispatch_info s1 =
      {| log_dispatch_labels := [];
         log_dispatch_strategies := [strategy_add_default_labels];
         log_event := "issue_comment";
         log_owner := Some "pytorch";
         log_pr_number := Some 61888%Z;
         log_pr_labels := Some ["ciflow/default"; "ciflow/old"];
         log_repo := Some "pytorch" |}).
  { eexists. split; [vm_compute; reflexivity|].
    split; [vm_compute; reflexivity|]. split; [vm_compute; reflexivity|].
    split; vm_compute; reflexivity. }
  destruct Hs as (s1 & E & Hv & Hroll & Hp & Hi).
  destruct (@accepted_delivery Samples.resolves c s1 _ (Some "pytorch")
              E Hv Hroll Hp eq_refl (fun _ _ => eq_refl)) as [_ Hh].
  eexists. rewrite Hh. unfold dispatch_info in *.
  cbn [dispatch_labels dispatch_strategies event owner pr_number pr_labels
       repo set_dispatch_labels].
  injection Hi as -> -> -> -> -> -> ->. reflexivity.
Defined.

(** X7. On every delivery and whatever the platform answers, the calls of
    the handler are an initial segment of: one add-labels call whose list is
    empty or ["ciflow/default"], one add-assignees call for the bot, one
    remove-assignees call for the bot, all three on the repository and the
    pull request of the payload.  So the handler never removes a label,
    never adds another label and never touches another assignee. *)
Theorem handler_calls_bounded (platform : list Effect -> Call -> bool)
    (c : Context.t) :
  let repository := opt_bind (Context.payload c) Payload.repository in
  let o := opt_bind (opt_bind repository Repository.owner) User.login in
  let r := opt_bind repository Repository.name in
  let n := opt_bind (payload_pr c) Issue.number in
  exists added k,
    (added = [] \/ added = ["ciflow/default"]) /\
    calls (snd (webhookHandler platform c [])) =
      firstn k [addLabels o r n added;
                addAssignees o r n [bot_assignee];
                removeAssignees o r n [bot_assignee]].
Proof.
  intros repository o r n.
  destruct (handler_fresh platform c)
    as (s1 & b & errs & E & Htr & Hcalls & _ & Hc & Hd & Hs & Hpre & _ & Hn
        & Hown & Hrepo & Hh).
  rewrite Hh.
  destruct (b && rollout s1).
  2:{ exists [], 0. split; [now left|]. cbn. exact Hcalls. }
  destruct (pr_labels s1) as [cur|] eqn:Hp.
  2:{ rewrite (dispatch_no_labels platform s1 _ Hd Hs Hp).
      exists [], 0. split; [now left | reflexivity]. }
  destruct (payload_owner_login_cases (ctx s1))
    as [Ht | (o' & r' & Ho' & Hr' & Eo & Er)].
  { rewrite (dispatch_no_owner platform s1 _ Hd Hs Hp (Hpre _ eq_refl) Ht).
    exists [], 0. split; [now left | reflexivity]. }
  rewrite (dispatch_fresh platform s1 _ Hd Hs Hp (Hpre _ eq_refl) Ho' Hr').
  rewrite Hc in Eo, Er. fold repository in Eo, Er, Hown, Hrepo.
  fold o in Eo, Hown. fold r in Er, Hrepo. fold n in Hn.
  rewrite Hown, Hrepo, Hn, Eo, Er.
  exists (if includes cur "ciflow/default" then [] else ["ciflow/default"]).
  assert (Ha : (if includes cur "ciflow/default" then []
                else ["ciflow/default"]) = [] \/
               (if includes cur "ciflow/default" then []
                else ["ciflow/default"]) = ["ciflow/default"])
    by (destruct (includes cur "ciflow/default"); auto).
  destruct (platform _ _); [|exists 1; split; [exact Ha | reflexivity]].
  destruct (platform _ _); [|exists 2; split; [exact Ha | reflexivity]].
  destruct (platform _ _); exists 3; (split; [exact Ha | reflexivity]).
Qed.

(** X8. A delivery that passes [valid] and [rollout] but carries no labels
    array, or no repository owner, makes the handler throw a [TypeError]
    right after the "ciflow dispatch started!" record, before any platform
    call. *)
Theorem malformed_delivery_throws (platform : list Effect -> Call -> bool)
    (c : Context.t) (s1 : Bot) :
  setContext (new c) = Returned s1 ->
  fst (valid s1 []) = Returned true ->
  rollout s1 = true ->
  opt_bind (payload_pr c) Issue.labels = None \/
  opt_bind (opt_bind (Context.payload c) Payload.repository)
    Repository.owner = None ->
  webhookHandler platform c [] =
    (Threw TypeError,
     [Log Info (LogDispatch (dispatch_info s1)) "ciflow dispatch started!"]).
Proof.
  intros E Hv Hroll Hmiss.
  destruct (handler_fresh platform c)
    as (x & b & errs & Ex & Htr & _ & _ & Hc & Hd & Hs & Hpre & Hl & _ & _
        & _ & Hh).
  rewrite E in Ex. injection Ex as <-.
  rewrite Htr in Hv. cbn in Hv. injection Hv as ->.
  rewrite Hroll in Hh. cbn [andb] in Hh. rewrite Hh.
  destruct (pr_labels s1) as [cur|] eqn:Hp.
  2:{ apply dispatch_no_labels; assumption. }
  destruct Hmiss as [Hm | Hm].
  { rewrite Hm in Hl. discriminate Hl. }
  apply (dispatch_no_owner platform s1 _ Hd Hs Hp (Hpre _ eq_refl)).
  rewrite Hc. unfold payload_owner_login. now rewrite Hm.
Qed.

Lemma malformed_delivery_throws_witness :
  let c := Context.Make "pull_request"
             (Some (Payload.Make
                      (Some (Issue.Make (Some 1%Z)
                               (Samples.user "zhouzhuojie") None))
                      None None Samples.pytorch)) in
  fst (webhookHandler Samples.resolves c []) = Threw TypeError /\
  calls (snd (webhookHandler Samples.resolves c [])) = [].
Proof.
  intros c.
  destruct (setContext (new c)) as [s1|] eqn:E; [|discriminate E].
  assert (Hs : fst (valid s1 []) = Returned true /\ rollout s1 = true).
  { vm_compute in E. injection E as <-. split; reflexivity. }
  destruct Hs as (Hv & Hroll).
  rewrite (@malformed_delivery_throws Samples.resolves c s1 E Hv Hroll
             (or_introl eq_refl)).
  split; reflexivity.
Defined.

(** ** Who can make the bot act *)

Lemma valid_true_inv (s : Bot) (tr tr' : list Effect) :
  valid s tr = (Returned true, tr') ->
  event s = event_pull_request \/
  (event s = event_issue_comment /\
   comment_author s = pr_author s /\
   includes_val allowed_commands (command s) = true).
Proof.
  unfold valid.
  destruct (String.eqb_spec (event s) event_pull_request) as [Ep|Ep];
    [now left|].
  destruct (String.eqb_spec (event s) event_issue_comment) as [Ec|Ec];
    cbn [negb andb]; [|discriminate].
  destruct (strict_eq (comment_author s) (Some "")); [discriminate|].
  destruct (strict_eq (comment_author s) (pr_author s)) eqn:Ea;
    cbn [negb]; [|discriminate].
  destruct (includes_val allowed_commands (command s)) eqn:Ei;
    cbn [negb]; [|discriminate].
  intros _. right. apply strict_eq_true in Ea. auto.
Qed.

Lemma setContext_command (c : Context.t) :
  let comment := opt_bind (Context.payload c) Payload.comment in
  exists s1,
    setContext (new c) = Returned s1 /\
    event s1 = Context.name c /\
    comment_author s1 = opt_bind (opt_bind comment Comment.user) User.login /\
    pr_author s1 =
      opt_bind (opt_bind (payload_pr c) Issue.user) User.login /\
    (command s1 = Some "" \/
     exists body whole g1 g2,
       opt_bind comment Comment.body = Some body /\
       match_ body re 2 = Some [Some whole; Some g1; Some g2] /\
       command s1 = Some g1).
Proof.
  intros comment. unfold setContext.
  match goal with |- context [parseComment ?b] =>
    destruct (parseComment_cases b)
      as [E | (body & w & g1 & g2 & Hb & Hm & E)]; rewrite E end;
  eexists; (split; [reflexivity|]); cbn; repeat (split; [reflexivity|]).
  - now left.
  - right. exists body, w, g1, g2. auto.
Qed.

(** X9. Whatever the platform answers, the handler issues a platform call
    only when the pull-request author is a rollout user and the delivery is
    a [pull_request] event, or an [issue_comment] event whose commenter is
    that same user and whose body mentions "@pytorchbot" and parses to the
    command "ciflow". *)
Theorem calls_need_authorisation (platform : list Effect -> Call -> bool)
    (c : Context.t) :
  let author := opt_bind (opt_bind (payload_pr c) Issue.user) User.login in
  let comment := opt_bind (Context.payload c) Payload.comment in
  let commenter := opt_bind (opt_bind comment Comment.user) User.login in
  calls (snd (webhookHandler platform c [])) <> [] ->
  exists a,
    author = Some a /\ In a rollout_users /\
    (Context.name c = event_pull_request \/
     (Context.name c = event_issue_comment /\
      commenter = Some a /\
      exists body whole args,
        opt_bind comment Comment.body = Some body /\
        str_includes body ("@" ++ bot_app_name) = true /\
        match_ body re 2 = Some [Some whole; Some "ciflow"; Some args])).
Proof.
  intros author comment commenter Hcalls.
  destruct (handler_fresh platform c)
    as (s1 & b & errs & E & Htr & Hec & _ & _ & _ & _ & _ & _ & _ & _ & _
        & Hh).
  destruct (setContext_command c) as (x & Ex & Hev & Hca & Hpa & Hcmd).
  rewrite E in Ex. injection Ex as <-.
  rewrite Hh in Hcalls.
  destruct b; [|cbn in Hcalls; contradiction].
  destruct (rollout s1) eqn:Hroll; [|cbn in Hcalls; contradiction].
  apply rollout_iff in Hroll. destruct Hroll as (a & Ha & Hin).
  exists a. split; [unfold author; congruence|]. split; [exact Hin|].
  destruct (valid_true_inv s1 [] (Htr [])) as [Hp | (Hc & Hsame & Hallowed)];
    [left; rewrite <- Hev; exact Hp|].
  right. split; [rewrite <- Hev; exact Hc|].
  split; [unfold commenter, comment; rewrite <- Hca, Hsame; exact Ha|].
  unfold includes_val in Hallowed.
  destruct (command s1) as [cmd|] eqn:Ecmd; [|discriminate].
  apply eqb_includes in Hallowed. destruct Hallowed as [<- | []].
  destruct Hcmd as [H | (body & whole & g1 & g2 & Hb & Hm & H)];
    [discriminate H|].
  injection H as <-. exists body, whole, g2.
  split; [exact Hb|]. split; [|exact Hm].
  apply (match_re _ Hm).
Qed.

Lemma calls_need_authorisation_witness :
  let c := Samples.issue_comment "zhouzhuojie" "zhouzhuojie" []
             "@pytorchbot ciflow" in
  calls (snd (webhookHandler Samples.resolves c [])) <> [] /\
  exists a,
    opt_bind (opt_bind (payload_pr c) Issue.user) User.login = Some a /\
    In a rollout_users.
Proof.
  intros c.
  assert (H : calls (snd (webhookHandler Samples.resolves c [])) <> [])
    by (vm_compute; discriminate).
  split; [exact H|].
  destruct (@calls_need_authorisation Samples.resolves c H)
    as (a & Ha & Hin & _).
  exists a. split; [exact Ha | exact Hin].
Defined.

(** ** Nothing happens after a rejected call *)

Lemma valid_errs_level (s : Bot) (b : bool) (errs : list Effect) :
  (forall tr, valid s tr = (Returned b, tr ++ errs)) ->
  Forall (fun e => exists o m, e = Log Error o m) errs.
Proof.
  intros H. destruct (valid_trace s) as (b' & errs' & Htr & _ & Hcases).
  specialize (H []). rewrite Htr in H. cbn in H. injection H as _ <-.
  destruct Hcases as [(-> & _) | [(-> & _) | (-> & _)]];
    repeat constructor; eauto.
Qed.

(** X10. The handler stops at the first rejected call.  Whatever the
    platform answers: every call of the trace that is followed by another
    effect was resolved by the platform; when the handler throws a
    [RequestError] the last effect of the trace is the call the platform
    rejected; and "ciflow dispatch success!" is logged only when the handler
    returns after all three of its calls. *)
Theorem handler_fail_stop (platform : list Effect -> Call -> bool)
    (c : Context.t) :
  let out := webhookHandler platform c [] in
  (forall i call,
     nth_error (snd out) i = Some (Api call) ->
     S i < List.length (snd out) ->
     platform (firstn i (snd out)) call = true) /\
  (fst out = Threw RequestError ->
   exists tr0 call,
     snd out = tr0 ++ [Api call] /\ platform tr0 call = false) /\
  (forall info,
     In (Log Info (LogDispatch info) "ciflow dispatch success!") (snd out) ->
     (exists s', fst out = Returned s') /\
     List.length (calls (snd out)) = 3).
Proof.
  intros out. subst out.
  destruct (handler_fresh platform c)
    as (s1 & b & errs & E & Htr & Hec & _ & Hc & Hd & Hs & Hpre & _ & _ & _
        & _ & Hh).
  pose proof (@valid_errs_level s1 b errs Htr) as Hlev.
  rewrite Hh. clear Hh.
  assert (Hquiet : forall tr : list Effect,
    Forall (fun e => exists o m, e = Log Error o m) tr ->
    let out := (Returned s1,
                Log Info (LogDispatch (dispatch_info s1))
                  "ciflow dispatch started!" :: tr) in
    (forall i call,
       nth_error (snd out) i = Some (Api call) ->
       S i < List.length (snd out) ->
       platform (firstn i (snd out)) call = true) /\
    (fst out = Threw RequestError ->
     exists tr0 call,
       snd out = tr0 ++ [Api call] /\ platform tr0 call = false) /\
    (forall info,
       In (Log Info (LogDispatch info) "ciflow dispatch success!") (snd out)
       -> (exists s', fst out = Returned s') /\
          List.length (calls (snd out)) = 3)).
  { intros tr Htr' out. subst out. cbn [fst snd].
    rewrite Forall_forall in Htr'. split; [|split].
    - intros i call Hn _. apply nth_error_In in Hn.
      destruct Hn as [Hn | Hn]; [discriminate Hn|].
      destruct (Htr' _ Hn) as (o & m & H). discriminate H.
    - discriminate.
    - intros info [H | H]; [discriminate H|].
      destruct (Htr' _ H) as (o & m & H'). discriminate H'. }
  destruct (b && rollout s1); [|exact (Hquiet errs Hlev)].
  destruct (pr_labels s1) as [cur|] eqn:Hp.
  2:{ rewrite (dispatch_no_labels platform s1 _ Hd Hs Hp). cbn [fst snd].
      split; [|split].
      - intros [|[|i]] call Hn Hi; cbn in Hn, Hi; try discriminate Hn; lia.
      - discriminate.
      - intros info [H | []]. discriminate H. }
  destruct (payload_owner_login_cases (ctx s1))
    as [Ht | (o & r & Ho & Hr & _ & _)].
  { rewrite (dispatch_no_owner platform s1 _ Hd Hs Hp (Hpre _ eq_refl) Ht).
    cbn [fst snd]. split; [|split].
    - intros [|[|i]] call Hn Hi; cbn in Hn, Hi; try discriminate Hn; lia.
    - discriminate.
    - intros info [H | []]. discriminate H. }
  rewrite (dispatch_fresh platform s1 _ Hd Hs Hp (Hpre _ eq_refl) Ho Hr).
  cbv zeta. cbn [app].
  set (started := Log Info (LogDispatch (dispatch_info s1))
                    "ciflow dispatch started!").
  set (al := addLabels _ _ _ _).
  set (aa := addAssignees _ _ _ _).
  set (ra := removeAssignees _ _ _ _).
  destruct (platform [started] al) eqn:P1.
  2:{ cbn [fst snd]. split; [|split].
      - intros [|[|[|i]]] call Hn Hi; cbn in Hn, Hi;
          try discriminate Hn; lia.
      - intros _. do 2 eexists. split; [|exact P1]. reflexivity.
      - intros info [H | [H | []]]; discriminate H. }
  destruct (platform [started; Api al] aa) eqn:P2.
  2:{ cbn [fst snd]. split; [|split].
      - intros [|[|[|[|i]]]] call Hn Hi; cbn in Hn, Hi;
          try discriminate Hn; try lia.
        injection Hn as <-. exact P1.
      - intros _. do 2 eexists. split; [|exact P2]. reflexivity.
      - intros info [H | [H | [H | []]]]; discriminate H. }
  destruct (platform [started; Api al; Api aa] ra) eqn:P3.
  2:{ cbn [fst snd]. split; [|split].
      - intros [|[|[|[|[|i]]]]] call Hn Hi; cbn in Hn, Hi;
          try discriminate Hn; try lia;
          injection Hn as <-; assumption.
      - intros _. do 2 eexists. split; [|exact P3]. reflexivity.
      - intros info [H | [H | [H | [H | []]]]]; discriminate H. }
  cbn [fst snd]. split; [|split].
  - intros [|[|[|[|[|[|i]]]]]] call Hn Hi; cbn in Hn, Hi;
      try discriminate Hn; try lia;
      injection Hn as <-; assumption.
  - discriminate.
  - intros info _. split; [eexists; reflexivity | reflexivity].
Qed.

(** ** The arguments of the command are not used *)

Lemma valid_congr (s1 s2 : Bot) (b1 b2 : bool) (e1 e2 : list Effect) :
  event s1 = event s2 ->
  comment_author s1 = comment_author s2 ->
  pr_author s1 = pr_author s2 ->
  command s1 = command s2 ->
  (forall tr, valid s1 tr = (Returned b1, tr ++ e1)) ->
  (forall tr, valid s2 tr = (Returned b2, tr ++ e2)) ->
  b1 = b2.
Proof.
  intros He Hc Hp Hk H1 H2. specialize (H1 []). specialize (H2 []).
  unfold valid in H1, H2. rewrite He, Hc, Hp, Hk in H1.
  destruct (negb (event s2 =? event_pull_request)%string &&
            negb (event s2 =? event_issue_comment)%string);
    [|destruct (event s2 =? event_issue_comment)%string;
      [destruct (strict_eq (comment_author s2) (Some ""));
       [|destruct (negb (strict_eq (comment_author s2) (pr_author s2)));
         [|destruct (negb (includes_val allowed_commands (command s2)))]]|]];
    unfold bind, emit, ret in H1, H2;
    injection H1 as <- _; injection H2 as <- _; reflexivity.
Qed.

(** X11. The handler looks at the command word only: two [issue_comment]
    deliveries that differ in nothing but the comment body, and whose bodies
    parse to the same command, lead to the same platform calls, whatever
    arguments follow the command and whatever the platform answers. *)
Theorem command_args_ignored (platform : list Effect -> Call -> bool)
    (name : string) (pr issue : option Issue.t) (commenter : option User.t)
    (repository : option Repository.t) (body1 body2 : string)
    (s1 s2 : Bot) :
  let c := fun body =>
    Context.Make name
      (Some (Payload.Make pr issue
               (Some (Comment.Make commenter (Some body))) repository)) in
  setContext (new (c body1)) = Returned s1 ->
  setContext (new (c body2)) = Returned s2 ->
  command s1 = command s2 ->
  calls (snd (webhookHandler platform (c body1) [])) =
  calls (snd (webhookHandler platform (c body2) [])).
Proof.
  intros c E1 E2 Hcmd.
  destruct (handler_fresh platform (c body1))
    as (x & b1 & errs1 & Ex & Htr1 & Hec1 & _ & Hc1 & Hd1 & Hs1 & Hpre1 & Hl1
        & Hn1 & Ho1 & Hr1 & Hh1).
  rewrite E1 in Ex. injection Ex as <-.
  destruct (handler_fresh platform (c body2))
    as (x & b2 & errs2 & Ex & Htr2 & Hec2 & _ & Hc2 & Hd2 & Hs2 & Hpre2 & Hl2
        & Hn2 & Ho2 & Hr2 & Hh2).
  rewrite E2 in Ex. injection Ex as <-.
  destruct (setContext_command (c body1)) as (x & Ex & Hev1 & Hca1 & Hpa1 & _).
  rewrite E1 in Ex. injection Ex as <-.
  destruct (setContext_command (c body2)) as (x & Ex & Hev2 & Hca2 & Hpa2 & _).
  rewrite E2 in Ex. injection Ex as <-.
  cbn in Hl1, Hn1, Ho1, Hr1, Hl2, Hn2, Ho2, Hr2, Hev1, Hca1, Hpa1, Hev2,
    Hca2, Hpa2.
  assert (Hb : b1 = b2).
  { apply (@valid_congr s1 s2 b1 b2 errs1 errs2);
      [now rewrite Hev1, Hev2 | now rewrite Hca1, Hca2
      | now rewrite Hpa1, Hpa2 | exact Hcmd | exact Htr1 | exact Htr2]. }
  assert (Hroll : rollout s1 = rollout s2)
    by (unfold rollout; now rewrite Hpa1, Hpa2).
  assert (Hpl : pr_labels s1 = pr_labels s2) by now rewrite Hl1, Hl2.
  assert (Hnum : pr_number s1 = pr_number s2) by now rewrite Hn1, Hn2.
  assert (Howner : owner s1 = owner s2) by now rewrite Ho1, Ho2.
  assert (Hrepo : repo s1 = repo s2) by now rewrite Hr1, Hr2.
  assert (Hinfo : dispatch_info s1 = dispatch_info s2).
  { unfold dispatch_info. f_equal; try assumption;
      [now rewrite Hd1, Hd2 | now rewrite Hs1, Hs2 | now rewrite Hev1, Hev2]. }
  rewrite Hh1, Hh2, Hb, Hroll, Hinfo.
  destruct (b2 && rollout s2);
    [|transitivity (@nil Call); [exact Hec1 | symmetry; exact Hec2]].
  destruct (pr_labels s2) as [cur|] eqn:Hp2.
  2:{ now rewrite (dispatch_no_labels platform s1 _ Hd1 Hs1 Hpl),
        (dispatch_no_labels platform s2 _ Hd2 Hs2 Hp2). }
  assert (Hown : payload_owner_login (ctx s1) = payload_owner_login (ctx s2))
    by (rewrite Hc1, Hc2; reflexivity).
  assert (Hrep : payload_repo_name (ctx s1) = payload_repo_name (ctx s2))
    by (rewrite Hc1, Hc2; reflexivity).
  destruct (payload_owner_login_cases (ctx s2))
    as [Ht | (o & r & Ho & Hr & _ & _)].
  { rewrite (dispatch_no_owner platform s2 _ Hd2 Hs2 Hp2 (Hpre2 _ eq_refl) Ht).
    rewrite <- Hown in Ht.
    now rewrite (dispatch_no_owner platform s1 _ Hd1 Hs1 Hpl (Hpre1 _ Hpl) Ht).
  }
  rewrite (dispatch_fresh platform s2 _ Hd2 Hs2 Hp2 (Hpre2 _ eq_refl) Ho Hr).
  rewrite <- Hown in Ho. rewrite <- Hrep in Hr.
  rewrite (dispatch_fresh platform s1 _ Hd1 Hs1 Hpl (Hpre1 _ Hpl) Ho Hr).
  cbv zeta.
  rewrite Hnum, Howner, Hrepo.
  destruct (platform _ _); [|reflexivity].
  destruct (platform _ _); [|reflexivity].
  destruct (platform _ _); reflexivity.
Qed.

Lemma command_args_ignored_witness :
  calls (snd (webhookHandler Samples.resolves
                (Samples.issue_comment "zhouzhuojie" "zhouzhuojie"
                   ["ciflow/old"] "@pytorchbot ciflow") [])) =
  calls (snd (webhookHandler Samples.resolves
                (Samples.issue_comment "zhouzhuojie" "zhouzhuojie"
                   ["ciflow/old"] "@pytorchbot ciflow all") [])).
Proof.
  assert (H : exists s1 s2,
    setContext (new (Samples.issue_comment "zhouzhuojie" "zhouzhuojie"
                       ["ciflow/old"] "@pytorchbot ciflow")) = Returned s1 /\
    setContext (new (Samples.issue_comment "zhouzhuojie" "zhouzhuojie"
                       ["ciflow/old"] "@pytorchbot ciflow all"))
      = Returned s2 /\
    command s1 = command s2).
  { do 2 eexists. split; [vm_compute; reflexivity|].
    split; [vm_compute; reflexivity | reflexivity]. }
  destruct H as (s1 & s2 & E1 & E2 & H).
  exact (@command_args_ignored Samples.resolves "issue_comment" None
           (Samples.issue "zhouzhuojie" ["ciflow/old"])
           (Samples.user "zhouzhuojie") Samples.pytorch
           "@pytorchbot ciflow" "@pytorchbot ciflow all" s1 s2
           E1 E2 H).
Defined.

(** ** Only the first line is read *)

Lemma str_forall_app (f : ascii -> bool) (a b : string) :
  str_forall f (a ++ b) = str_forall f a && str_forall f b.
Proof.
  induction a as [|x a IH]; simpl; [reflexivity|].
  now rewrite IH, andb_assoc.
Qed.

Lemma before_terminator (p : string) :
  forall l x y c,
    (p ++ x)%string = (l ++ String c y)%string ->
    str_forall (in_class Dot) p = true ->
    in_class Dot c = false ->
    exists z, l = (p ++ z)%string.
Proof.
  induction p as [|a p IH]; intros l x y c H Hp Hc.
  - exists l. reflexivity.
  - cbn [str_forall] in Hp. apply andb_prop in Hp. destruct Hp as [Ha Hp].
    destruct l as [|b l]; simpl in H; injection H as Hab H.
    + subst c. congruence.
    + subst b. destruct (IH l x y c H Hp Hc) as [z ->].
      exists z. reflexivity.
Qed.

(** X12. A mention is recognised on the first line only: when the text in
    front of a line terminator of the comment body holds no "@pytorchbot",
    [parseComment] leaves the instance as it was, whatever follows the
    terminator. *)
Theorem mention_after_newline_ignored (s : Bot) (line : string) (c : ascii)
    (more : string) :
  comment_body s = Some (line ++ String c more)%string ->
  in_class Dot c = false ->
  str_includes line ("@" ++ bot_app_name) = false ->
  parseComment s = Returned s.
Proof.
  intros Hb Hc Hline.
  unfold parseComment. rewrite Hb.
  destruct (match_ (line ++ String c more) re 2) as [found|] eqn:E;
    [|reflexivity].
  exfalso. apply match_re_shape in E.
  destruct E as (pre & ws & cmd & sp & tail & Hbody & Hpre & _).
  rewrite append_assoc in Hbody. symmetry in Hbody.
  apply before_terminator in Hbody; [|
    rewrite str_forall_app, Hpre; reflexivity | exact Hc].
  destruct Hbody as [z Hz].
  rewrite Hz, <- append_assoc, str_includes_app in Hline. discriminate.
Qed.

Lemma mention_after_newline_ignored_witness :
  let s := set_comment_body
             (Some ("thanks" ++ String "010" "@pytorchbot ciflow")%string)
             (new (Context.Make "issue_comment" None)) in
  parseComment s = Returned s.
Proof.
  intros s.
  exact (@mention_after_newline_ignored s "thanks" "010"
           "@pytorchbot ciflow" eq_refl eq_refl eq_refl).
Defined.

(** ** Reconciliation against a platform that may reject *)

Lemma firstn_app_le {A} (i : nat) (l x : list A) :
  i <= List.length l -> firstn i (l ++ x) = firstn i l.
Proof.
  intros H. rewrite firstn_app.
  replace (i - List.length l) with 0 by lia. cbn. apply app_nil_r.
Qed.

Section Rejections.

Variable platform : list Effect -> Call -> bool.
Variables (s : Bot) (o r : option string).
Hypothesis owner_login : payload_owner_login (ctx s) = Returned o.
Hypothesis repo_name : payload_repo_name (ctx s) = Returned r.

(** The loop of [setLabels]: the remove-label calls go out in order, each
    after the one before it resolved; the first rejected one is the last. *)
Lemma removeLabels_stops (ls : list string) :
  forall tr,
    let rm := map (fun l => removeLabel o r (pr_number s) l) ls in
    exists k,
      (forall i call, i < k -> nth_error rm i = Some call ->
         platform (tr ++ map Api (firstn i rm)) call = true) /\
      ((k = List.length rm /\
        removeLabels platform s ls tr = (Returned tt, tr ++ map Api rm)) \/
       (exists call,
          nth_error rm k = Some call /\
          platform (tr ++ map Api (firstn k rm)) call = false /\
          removeLabels platform s ls tr =
            (Threw RequestError, tr ++ map Api (firstn (S k) rm)))).
Proof.
  induction ls as [|l ls IH]; intros tr rm; subst rm.
  - exists 0. split; [intros i call Hi; lia|].
    left. split; [reflexivity|]. cbn. unfold ret. now rewrite app_nil_r.
  - cbn [removeLabels map]. unfold bind, lift, request.
    rewrite owner_login, repo_name.
    set (c := removeLabel o r (pr_number s) l).
    set (rm := map (fun l => removeLabel o r (pr_number s) l) ls).
    destruct (platform tr c) eqn:P.
    + destruct (IH (tr ++ [Api c])) as (k & Hres & Hend). fold rm in Hres, Hend.
      exists (S k). split.
      * intros [|i] call Hi Hn; cbn in Hn |- *.
        -- injection Hn as <-. now rewrite app_nil_r.
        -- specialize (Hres i call ltac:(lia) Hn).
           now rewrite <- app_assoc in Hres.
      * destruct Hend as [[Hk E] | (call & Hn & Hp & E)].
        -- left. split; [cbn; now rewrite Hk|].
           rewrite E, <- app_assoc. reflexivity.
        -- right. exists call. split; [exact Hn|].
           rewrite <- app_assoc in Hp, E. split; [exact Hp | exact E].
    + exists 0. split; [intros i call Hi; lia|].
      right. exists c. split; [reflexivity|].
      cbn. rewrite app_nil_r. split; [exact P | reflexivity].
Qed.

End Rejections.

(** X13. [setLabels] against any platform.  Its calls are the remove-label
    calls of [labelsToDelete], in order, and then the add-labels call; each
    is issued only after the ones before it resolved.  Either all of them
    resolve and [dispatch_labels] becomes the target, or the first rejected
    call is the last one issued and [setLabels] throws: the labels after it
    are not removed and nothing is added. *)
Theorem setLabels_stops_at_rejection
    (platform : list Effect -> Call -> bool) (s : Bot) (cur : list string)
    (o r : option string) (tr : list Effect) :
  pr_labels s = Some cur ->
  payload_owner_login (ctx s) = Returned o ->
  payload_repo_name (ctx s) = Returned r ->
  let plan :=
    map (fun l => removeLabel o r (pr_number s) l)
      (labelsToDelete (labels s) cur)
    ++ [addLabels o r (pr_number s) (labelsToAdd (labels s) cur)] in
  exists k,
    (forall i call, i < k -> nth_error plan i = Some call ->
       platform (tr ++ map Api (firstn i plan)) call = true) /\
    ((k = List.length plan /\
      setLabels platform s tr =
        (Returned (set_dispatch_labels (labels s) s), tr ++ map Api plan)) \/
     (exists call,
        nth_error plan k = Some call /\
        platform (tr ++ map Api (firstn k plan)) call = false /\
        setLabels platform s tr =
          (Threw RequestError, tr ++ map Api (firstn (S k) plan)))).
Proof.
  intros Hp Ho Hr plan. subst plan.
  set (rm := map (fun l => removeLabel o r (pr_number s) l)
               (labelsToDelete (labels s) cur)).
  set (add := addLabels o r (pr_number s) (labelsToAdd (labels s) cur)).
  assert (Hset : setLabels platform s tr =
    match removeLabels platform s (labelsToDelete (labels s) cur) tr with
    | (Returned _, tr') =>
        if platform tr' add
        then (Returned (set_dispatch_labels (labels s) s), tr' ++ [Api add])
        else (Threw RequestError, tr' ++ [Api add])
    | (Threw e, tr') => (Threw e, tr')
    end).
  { unfold setLabels. rewrite Hp. unfold bind, lift, request, ret.
    rewrite Ho, Hr. fold add.
    destruct (removeLabels platform s _ tr) as [[[]|e] t]; [|reflexivity].
    destruct (platform t add); reflexivity. }
  rewrite Hset. clear Hset.
  destruct (removeLabels_stops platform s Ho Hr
              (labelsToDelete (labels s) cur) tr) as (k & Hres & Hend).
  fold rm in Hres, Hend.
  destruct Hend as [[Hk E] | (call & Hn & Hrej & E)]; rewrite E.
  - destruct (platform (tr ++ map Api rm) add) eqn:P.
    + exists (S k). split.
      * intros i call Hi Hn.
        destruct (Nat.eq_dec i k) as [->|Hne].
        -- rewrite Hk in Hn |- *.
           rewrite nth_error_app2, Nat.sub_diag in Hn by lia.
           injection Hn as <-.
           rewrite firstn_app_le, firstn_all by lia. exact P.
        -- assert (Hlt : i < k) by lia.
           rewrite nth_error_app1 in Hn by lia.
           rewrite firstn_app_le by lia. now apply Hres.
      * left. split; [rewrite length_app; cbn; lia|].
        rewrite map_app, <- app_assoc. reflexivity.
    + exists k. split.
      * intros i call Hi Hn.
        rewrite nth_error_app1 in Hn by lia.
        rewrite firstn_app_le by lia. now apply Hres.
      * right. exists add. rewrite Hk.
        rewrite nth_error_app2, Nat.sub_diag by lia.
        split; [reflexivity|].
        rewrite firstn_app_le, firstn_all by lia. split; [exact P|].
        rewrite firstn_all2 by (rewrite length_app; cbn; lia).
        rewrite map_app, <- app_assoc. reflexivity.
  - assert (Hlt : k < List.length rm)
      by (apply nth_error_Some; congruence).
    exists k. split.
    + intros i c Hi Hc.
      rewrite nth_error_app1 in Hc by lia.
      rewrite firstn_app_le by lia. now apply Hres.
    + right. exists call.
      rewrite nth_error_app1 by lia.
      rewrite !firstn_app_le by lia. auto.
Qed.

Lemma setLabels_stops_at_rejection_witness :
  let c := Samples.pull_request "zhouzhuojie" ["ciflow/old"; "ciflow/cuda"] in
  let platform := fun (_ : list Effect) (call : Call) =>
    match call with
    | removeLabel _ _ _ "ciflow/cuda" => false
    | _ => true
    end in
  exists s1,
    setContext (new c) = Returned s1 /\
    setLabels platform (set_dispatch_labels ["ciflow/default"] s1) [] =
      (Threw RequestError,
       [Api (removeLabel (Some "pytorch") (Some "pytorch") (Some 61888%Z)
               "ciflow/old");
        Api (removeLabel (Some "pytorch") (Some "pytorch") (Some 61888%Z)
               "ciflow/cuda")]).
Proof.
  intros c platform.
  assert (H : exists s1,
    setContext (new c) = Returned s1 /\
    pr_labels s1 = Some ["ciflow/old"; "ciflow/cuda"] /\
    payload_owner_login (ctx s1) = Returned (Some "pytorch") /\
    payload_repo_name (ctx s1) = Returned (Some "pytorch") /\
    pr_number s1 = Some 61888%Z).
  { eexists. split; [vm_compute; reflexivity|]. repeat split. }
  destruct H as (s1 & E & Hp & Ho & Hr & Hn).
  exists s1. split; [exact E|].
  destruct (@setLabels_stops_at_rejection platform
              (set_dispatch_labels ["ciflow/default"] s1) _ _ _ [] Hp Ho Hr)
    as (k & Hres & [[Hk Hret] | (call & Hc & Hrej & Hthrow)]).
  - exfalso.
    specialize (Hres 1
      (removeLabel (Some "pytorch") (Some "pytorch") (Some 61888%Z)
         "ciflow/cuda")).
    cbn [pr_number set_dispatch_labels] in Hres, Hk. rewrite Hn in Hres.
    cbn in Hk. subst k.
    assert (Hlt : 1 < 3) by lia.
    discriminate (Hres Hlt eq_refl).
  - cbn [pr_number set_dispatch_labels] in Hres, Hc, Hrej, Hthrow.
    rewrite Hn in Hres, Hc, Hrej, Hthrow.
    destruct k as [|[|[|k]]].
    + cbn in Hc. injection Hc as <-. discriminate Hrej.
    + exact Hthrow.
    + cbn in Hc. injection Hc as <-. discriminate Hrej.
    + cbn in Hc. destruct k; discriminate Hc.
Defined.
